(** * Shift acquisition and booking core: ledger, workflow, scheduler

    A shallow embedding of the Python sources

      - [page_objects/shift_booking.py]   (ShiftBookingState, ShiftBooking)
      - [utils/selenium_helpers.py]       (click_with_retry)
      - [services/bulletproof_booking.py] (BulletproofBookingService)
      - [enhanced_notifier.py]            (EnhancedDiscordNotifier.send)
      - [bulletproof_monitor.py]          (BulletproofMonitor)

    Python statements become computations in a state-and-exception monad;
    objects ([self]) live in the state, so that a mutation performed before
    an exception is raised stays visible afterwards, as in Python.  The
    browser, the web site, the clock and the network are an arbitrary
    environment answering the primitive calls the code makes. *)

From stdpp Require Import base option list strings gmap sets pretty.
From Stdlib Require Import ZArith Lia.

Set Warnings "-register-all".
Local Open Scope Z_scope.

(** ** Python control flow: exceptions over mutable state *)

Module Py.

(** The exception classes that the modelled code names in an [except]
    clause, and those the modelled library calls raise.  Every handler of the
    sources names leaf classes or [Exception] itself, so matching a raised
    exception against a clause is equality of classes. *)
Inductive exn :=
| JSONDecodeError
| KeyError
| AttributeError
| TypeError
| ValueError
| OverflowError
| UnicodeDecodeError
| OSError
| TimeoutException
| NoSuchElementException
| ElementClickInterceptedException
| StaleElementReferenceException
| WebDriverException
| RequestException
| OtherException (name : string).

#[global] Instance exn_eq_dec : EqDecision exn.
Proof. solve_decision. Defined.

Inductive outcome (A : Type) :=
| Ret (a : A)
| Raise (e : exn).
Arguments Ret {A} a.
Arguments Raise {A} e.

Definition M (S A : Type) : Type := S → S * outcome A.

Definition ret {S A} (a : A) : M S A := λ s, (s, Ret a).
Definition raise {S A} (e : exn) : M S A := λ s, (s, Raise e).
Definition bind {S A B} (m : M S A) (k : A → M S B) : M S B :=
  λ s, match m s with
       | (s', Ret a) => k a s'
       | (s', Raise e) => (s', Raise e)
       end.
Definition get {S} : M S S := λ s, (s, Ret s).
Definition gets {S A} (f : S → A) : M S A := λ s, (s, Ret (f s)).
Definition modify {S} (f : S → S) : M S unit := λ s, (f s, Ret tt).

(** [except (c1, c2, ...)] *)
Definition only (cs : list exn) (e : exn) : bool := bool_decide (e ∈ cs).
(** [except Exception] and the bare [except:] (the model has no
    [BaseException] outside [Exception]). *)
Definition Exception (e : exn) : bool := true.

(** [try: body  except clause as e: handler e] *)
Definition try_except {S A} (body : M S A) (clause : exn → bool)
    (handler : exn → M S A) : M S A :=
  λ s, match body s with
       | (s', Raise e) => if clause e then handler e s' else (s', Raise e)
       | r => r
       end.

(** A method of an object stored in a field of the caller's state. *)
Definition zoom {S T A} (proj : S → T) (upd : T → S → S) (m : M T A) : M S A :=
  λ s, let '(t', r) := m (proj s) in (upd t' s, r).

(** [returns m]: from every state, [m] ends with a value, not an exception. *)
Definition returns {S A} (m : M S A) : Prop := ∀ s, ∃ s' a, m s = (s', Ret a).

(** [post m s Q]: run from [s], [m] ends in a state and with an outcome
    that satisfy [Q]. *)
Definition post {S A} (m : M S A) (s : S) (Q : S → outcome A → Prop) : Prop :=
  Q (m s).1 (m s).2.

(** [keeps proj m]: [m] leaves the part [proj] of the state as it was. *)
Definition keeps {S T A} (proj : S → T) (m : M S A) : Prop :=
  ∀ s, proj (m s).1 = proj s.


End Py.
Import Py.

#[global] Instance M_ret {S} : MRet (M S) := λ A a, Py.ret a.
#[global] Instance M_bind {S} : MBind (M S) := λ A B k m, Py.bind m k.

(** [for x in xs: if body(x): break]: runs [body] on the items in order up
    to the first one that answers [true]; the result tells whether one did. *)
Fixpoint for_first {S A} (xs : list A) (body : A → M S bool) : M S bool :=
  match xs with
  | [] => mret false
  | x :: rest => b ← body x; if b : bool then mret true else for_first rest body
  end.

(** [for x in xs: ...] whose body may [return v] ([Some v]) or fall through
    to the next item ([None]). *)
Fixpoint for_return {S A B} (xs : list A) (body : A → M S (option B))
    : M S (option B) :=
  match xs with
  | [] => mret None
  | x :: rest =>
      r ← body x;
      match r with
      | Some v => mret (Some v)
      | None => for_return rest body
      end
  end.

(** [for x in xs: body(x)] with no early exit. *)
Fixpoint for_each {S A} (xs : list A) (body : A → M S unit) : M S unit :=
  match xs with
  | [] => mret tt
  | x :: rest => body x;; for_each rest body
  end.

(** [range(n)] *)
Definition range (n : Z) : list Z := Z.of_nat <$> seq 0 (Z.to_nat n).

(** [enumerate(xs)] *)
Definition enumerate {A} (xs : list A) : list (nat * A) := zip (seq 0 (length xs)) xs.

(** *** [str] methods, on ASCII text *)

Definition lower_char (c : Ascii.ascii) : Ascii.ascii :=
  let n := Ascii.nat_of_ascii c in
  if Nat.leb 65 n && Nat.leb n 90 then Ascii.ascii_of_nat (n + 32) else c.
Fixpoint lower (s : string) : string :=
  match s with
  | EmptyString => EmptyString
  | String c rest => String (lower_char c) (lower rest)
  end.

(** [needle in hay] *)
Fixpoint contains (needle hay : string) : bool :=
  if String.prefix needle hay then true
  else match hay with
       | EmptyString => false
       | String _ rest => contains needle rest
       end.

Definition is_space (c : Ascii.ascii) : bool :=
  let n := Ascii.nat_of_ascii c in
  Nat.eqb n 32 || (Nat.leb 9 n && Nat.leb n 13).
Fixpoint lstrip (s : string) : string :=
  match s with
  | EmptyString => EmptyString
  | String c rest => if is_space c then lstrip rest else s
  end.
Fixpoint rstrip (s : string) : string :=
  match s with
  | EmptyString => EmptyString
  | String c rest =>
      match rstrip rest with
      | EmptyString => if is_space c then EmptyString else String c EmptyString
      | rest' => String c rest'
      end
  end.
Definition strip (s : string) : string := rstrip (lstrip s).

(** Truthiness of an [Optional[str]]: [None] and the empty string are false. *)
Definition truthy (o : option string) : option string :=
  match o with
  | Some EmptyString => None
  | _ => o
  end.

(** ** The persisted store *)

Module Store.

(** What [json.load] returns.  Numbers are integers: the ledger never
    writes a fractional number. *)
Inductive json :=
| JNull
| JBool (b : bool)
| JNum (z : Z)
| JStr (s : string)
| JArr (items : list json)
| JObj (members : list (string * json)).

(** A member of a [set] built from JSON values, up to Python's equality,
    under which [True] is [1] and [False] is [0]. *)
Inductive key :=
| KStr (s : string)
| KNum (z : Z)
| KNull.

#[global] Instance key_eq_dec : EqDecision key.
Proof. solve_decision. Defined.

#[global] Instance key_countable : Countable key.
Proof.
  apply (inj_countable'
           (λ k, match k with
                 | KStr s => inl s
                 | KNum z => inr (inl z)
                 | KNull => inr (inr tt)
                 end)
           (λ x, match x with
                 | inl s => KStr s
                 | inr (inl z) => KNum z
                 | inr (inr _) => KNull
                 end)).
  by intros [].
Defined.

(** The text held by a file, up to what [json.load] makes of it. *)
Inductive content :=
| Doc (j : json)        (* a complete JSON document *)
| Truncated             (* a proper prefix of a document, possibly empty *)
| Malformed             (* any other text that is not JSON *)
| Undecodable.          (* bytes that are not text in the default encoding *)

Inductive file :=
| Unreadable            (* present, but [open(.., 'r')] is refused *)
| Holding (c : content).

(** How the file system treats an attempt to rewrite a path. *)
Inductive fault :=
| NoFault
| OpenFails             (* [open(.., 'w')] raises: read-only, no directory *)
| DumpFails.            (* the file is opened and emptied, the write raises *)

Record Disk := {
  files : gmap string file;
  faults : string → fault;
}.

Definition with_file (p : string) (f : file) (d : Disk) : Disk :=
  {| files := <[p := f]> (files d); faults := faults d |}.
Arguments with_file : simpl never.

(** The two file operations of a save, each one step of the file system. *)
Inductive op :=
| OpenW (p : string)                (* [open(p, 'w')]: create or empty *)
| Dump (p : string) (j : json).     (* [json.dump(j, f)] and the close *)

Definition run_op (o : op) : M Disk unit :=
  match o with
  | OpenW p => λ d,
      match faults d p with
      | OpenFails => (d, Raise OSError)
      | _ => (with_file p (Holding Truncated) d, Ret tt)
      end
  | Dump p j => λ d,
      match faults d p with
      | NoFault => (with_file p (Holding (Doc j)) d, Ret tt)
      | _ => (d, Raise OSError)
      end
  end.

Fixpoint run_ops (os : list op) : M Disk unit :=
  match os with
  | [] => ret tt
  | o :: os' => run_op o;; run_ops os'
  end.

(** [Path.exists()] *)
Definition path_exists (p : string) : M Disk bool :=
  gets (λ d, bool_decide (is_Some (files d !! p))).

(** [with open(p, 'r') as f: data = json.load(f)] *)
Definition read_json (p : string) : M Disk json :=
  λ d, match files d !! p with
       | None => (d, Raise OSError)
       | Some Unreadable => (d, Raise OSError)
       | Some (Holding (Doc j)) => (d, Ret j)
       | Some (Holding Undecodable) => (d, Raise UnicodeDecodeError)
       | Some (Holding _) => (d, Raise JSONDecodeError)
       end.

(** [data.get(k)] on the [dict] built from a JSON object: of several
    members with one name, the last one stands. *)
Fixpoint dict_get (k : string) (members : list (string * json)) : option json :=
  match members with
  | [] => None
  | (k', v) :: rest =>
      match dict_get k rest with
      | Some v' => Some v'
      | None => if String.eqb k k' then Some v else None
      end
  end.

(** [data.get(k, default)]; any value that is not a [dict] has no [get]. *)
Definition py_get {S} (data : json) (k : string) (dflt : json) : M S json :=
  match data with
  | JObj members => ret (default dflt (dict_get k members))
  | _ => raise AttributeError
  end.

End Store.
Import Store.

(** ** [class ShiftBookingState]  (page_objects/shift_booking.py, 30-92) *)

Module ShiftBookingState.

(** [booked_today] is a set and [daily_count] holds whatever was assigned to
    it last: an integer by the code itself, or the value that [_load_state]
    read from the file, of whatever type. *)
Record t := {
  state_file : string;
  booked_today : gset key;
  daily_count : json;
  last_reset_date : string;
}.

(** The object together with the file system its methods act on. *)
Record World := {
  self : t;
  disk : Disk;
}.

Definition set_self (f : t → t) : M World unit :=
  modify (λ w, {| self := f (self w); disk := disk w |}).
Definition on_disk {A} (m : M Disk A) : M World A :=
  zoom disk (λ d w, {| self := self w; disk := d |}) m.

Definition key_json (k : key) : json :=
  match k with
  | KStr s => JStr s
  | KNum z => JNum z
  | KNull => JNull
  end.

(** The [data] dictionary of [_save_state].  [list(self.booked_today)]
    enumerates the set in an order Python leaves open; [elements] fixes one. *)
Definition record_of (s : t) : json :=
  JObj [ ("booked_today", JArr (key_json <$> elements (booked_today s)));
         ("daily_count", daily_count s);
         ("last_reset_date", JStr (last_reset_date s)) ].

(** The file operations of [_save_state], in program order. *)
Definition save_ops (s : t) : list op :=
  [ OpenW (state_file s); Dump (state_file s) (record_of s) ].

Definition _save_state : M World unit :=
  try_except
    (s ← gets self;
     on_disk (run_ops (save_ops s)))
    Exception
    (λ e, mret tt).                  (* logger.error(...) *)

Definition _reset_daily_state (today : string) : M World unit :=
  set_self (λ s, {| state_file := state_file s; booked_today := ∅;
                    daily_count := daily_count s;
                    last_reset_date := last_reset_date s |});;
  set_self (λ s, {| state_file := state_file s; booked_today := booked_today s;
                    daily_count := JNum 0;
                    last_reset_date := last_reset_date s |});;
  set_self (λ s, {| state_file := state_file s; booked_today := booked_today s;
                    daily_count := daily_count s;
                    last_reset_date := today |});;
  _save_state.

(** The member of a set that a JSON value makes; lists and objects cannot
    be members. *)
Definition key_of (j : json) : option key :=
  match j with
  | JStr s => Some (KStr s)
  | JNum z => Some (KNum z)
  | JBool b => Some (KNum (if b then 1 else 0))
  | JNull => Some KNull
  | JArr _ | JObj _ => None
  end.
Fixpoint chars (s : string) : list string :=
  match s with
  | EmptyString => []
  | String c rest => String c EmptyString :: chars rest
  end.

(** [set(v)] for a value read from JSON. *)
Definition py_set {S} (v : json) : M S (gset key) :=
  match v with
  | JArr items =>
      match mapM key_of items with
      | Some ks => mret (list_to_set ks)
      | None => raise TypeError           (* unhashable type: 'list' / 'dict' *)
      end
  | JStr s => mret (list_to_set (KStr <$> chars s))
  | JObj members => mret (list_to_set (KStr <$> members.*1))
  | JNull | JBool _ | JNum _ => raise TypeError   (* object is not iterable *)
  end.

(** The integer that a value is, if it is one; [bool] is a subclass of
    [int]. *)
Definition int_of (v : json) : option Z :=
  match v with
  | JNum z => Some z
  | JBool b => Some (if b then 1 else 0)
  | _ => None
  end.
Definition is_str (v : json) (s : string) : bool :=
  match v with
  | JStr s' => String.eqb s' s
  | _ => false
  end.

(** [today] is the value of [date.today().isoformat()] during the call.
    What the file holds under [daily_count] is stored as it is. *)
Definition _load_state (today : string) : M World unit :=
  p ← gets (λ w, state_file (self w));
  present ← on_disk (path_exists p);
  if present : bool then
    try_except
      (data ← on_disk (read_json p);
       d ← py_get data "last_reset_date" JNull;
       if negb (is_str d today) then _reset_daily_state today
       else
         b ← py_get data "booked_today" (JArr []);
         booked ← py_set b;
         set_self (λ s, {| state_file := state_file s; booked_today := booked;
                           daily_count := daily_count s;
                           last_reset_date := last_reset_date s |});;
         c ← py_get data "daily_count" (JNum 0);
         set_self (λ s, {| state_file := state_file s; booked_today := booked_today s;
                           daily_count := c;
                           last_reset_date := last_reset_date s |});;
         (* the stored date is the string [today], as just compared *)
         set_self (λ s, {| state_file := state_file s; booked_today := booked_today s;
                           daily_count := daily_count s;
                           last_reset_date := today |}))
      (only [JSONDecodeError; KeyError])
      (λ e, _reset_daily_state today)
  else mret tt.

(** [ShiftBookingState(state_file)] *)
Definition __init__ (file : string) (today : string) : M Disk t :=
  λ d,
    let w := {| self := {| state_file := file; booked_today := ∅;
                           daily_count := JNum 0; last_reset_date := today |};
                disk := d |} in
    match _load_state today w with
    | (w', Ret _) => (disk w', Ret (self w'))
    | (w', Raise e) => (disk w', Raise e)
    end.

Definition is_already_booked (job_id : string) : M World bool :=
  gets (λ w, bool_decide (KStr job_id ∈ booked_today (self w))).

(** Lines 86-87 of [mark_as_booked]: the update of the object.
    [self.daily_count += 1] raises when the counter is no number. *)
Definition add_and_count (job_id : string) : M World unit :=
  set_self (λ s, {| state_file := state_file s;
                    booked_today := {[KStr job_id]} ∪ booked_today s;
                    daily_count := daily_count s;
                    last_reset_date := last_reset_date s |});;
  c ← gets (λ w, daily_count (self w));
  match int_of c with
  | Some z =>
      set_self (λ s, {| state_file := state_file s; booked_today := booked_today s;
                        daily_count := JNum (z + 1);
                        last_reset_date := last_reset_date s |})
  | None => raise TypeError
  end.

Definition mark_as_booked (job_id : string) : M World unit :=
  add_and_count job_id;;
  _save_state.

(** [self.daily_count < daily_limit]: a counter that is no number does not
    compare with one. *)
Definition can_book_more (daily_limit : Z) : M World bool :=
  c ← gets (λ w, daily_count (self w));
  match int_of c with
  | Some z => mret (bool_decide (z < daily_limit))
  | None => raise TypeError
  end.

(** The file system a process leaves behind when it is killed during
    [mark_as_booked], after [k] file operations of the save have completed. *)
Definition killed_in_save (k : nat) (w : World) : Disk :=
  (run_ops (take k (save_ops (self w))) (disk w)).1.
Definition killed_in_mark (job_id : string) (k : nat) (w : World) : Disk :=
  killed_in_save k (add_and_count job_id w).1.

End ShiftBookingState.

(** ** The environment: browser, web site, clock, network *)

Module Env.

(** A handle on a [WebElement]. *)
Definition elem := nat.

(** The argument of [time.sleep]. *)
Inductive duration :=
| Seconds (s : Z)
| Millis (ms : Z)
| Power (tenths : Z) (exponent : Z).   (* [(tenths / 10) ** exponent] seconds *)

(** What the code reads of the reply to [requests.post]:
    [response.status_code] and [int(response.headers.get('Retry-After', 1))],
    the latter [None] when [int] raises [ValueError]. *)
Record response := {
  status_code : Z;
  retry_after : option Z;
}.

(** A job as [extract_all_job_information] reports it: the entries of the
    dictionary that the booking code reads with [get]. *)
Record job := {
  title : option string;
  location : option string;
  schedule : option string;
  pay_rate : option string;
}.

(** The calls into libraries and into collaborators that are not modelled,
    indexed by the type of what they return. *)
Inductive prim : Type → Type :=
(* seleniumbase: [SB(...)] as a context manager, [BaseCase] *)
| SbEnter : prim unit
| SbExit : prim unit
| SbOpen (url : string) : prim unit
| SbFindElement (selector : string) : prim elem
(* selenium: [WebDriver], [WebDriverWait], [ActionChains] *)
| FindElements (by_ selector : string) : prim (list elem)
| ExecuteScript (script : string) (e : elem) : prim unit
| CurrentUrl : prim string
| Screenshot : prim unit
| ActionChainsClick (e : elem) : prim unit
| WaitUntil (condition selector : string) : prim elem
(* selenium: [WebElement] *)
| FindChild (parent : elem) (selector : string) : prim elem
| IsDisplayed (e : elem) : prim bool
| IsEnabled (e : elem) : prim bool
| Click (e : elem) : prim unit
| Text (e : elem) : prim string
| GetAttribute (e : elem) (name : string) : prim (option string)
(* requests, the fallback log file, [os.system] *)
| HttpPost (timeout : Z) : prim response
| AppendLine (path : string) : prim unit
| OsSystem : prim unit
(* collaborators taken as given *)
| ValidateSession : prim bool           (* validate_session_bulletproof(sb) *)
| NewMainMonitor : prim unit            (* EnhancedIntegratedMonitor(config) *)
| InitializeComponents : prim unit      (* main_monitor.initialize_components(sb) *)
| ExtractJobs : prim (list job)         (* extract_all_job_information().get('jobs', []) *)
| HandleShiftDropdown : prim bool.      (* ShiftBooking._handle_shift_dropdown *)

(** An environment answers every call with a value or an exception and
    moves on; sleeping and reading the clock cannot fail. *)
Class Environment (E : Type) := {
  answer : ∀ {A}, prim A → E → E * (exn + A);
  elapse : duration → E → E;
  time_time : E → Z;              (* [int(time.time())] *)
  date_today : E → string;        (* [date.today().isoformat()] *)
  datetime_now : E → string;      (* [datetime.now().isoformat()] *)
}.

Inductive event :=
| Called {A} (p : prim A)
| Slept (d : duration).

(** The environment with the record of what the program did to it. *)
Record Sys (E : Type) := {
  env : E;
  events : list event;
}.
Arguments env {E} _.
Arguments events {E} _.

Section Calls.
Context {E : Type} `{Environment E}.

Definition call {A} (p : prim A) : M (Sys E) A :=
  λ s, let '(e', r) := answer p (env s) in
       ({| env := e'; events := events s ++ [Called p] |},
        match r with inl x => Raise x | inr a => Ret a end).

(** [time.sleep(d)] *)
Definition sleep (d : duration) : M (Sys E) unit :=
  λ s, ({| env := elapse d (env s); events := events s ++ [Slept d] |}, Ret tt).

Definition clock {A} (read : E → A) : M (Sys E) A := gets (λ s, read (env s)).

(** [time.sleep] refuses a negative length with [ValueError], and a length
    beyond what its clock of 64-bit nanoseconds holds with [OverflowError]. *)
Definition sleep_max : Z := 9223372036.
Definition refused (numerator denominator : Z) : option exn :=
  if bool_decide (numerator < 0) then Some ValueError
  else if bool_decide (sleep_max * denominator < numerator) then Some OverflowError
  else None.
Definition duration_fault (d : duration) : option exn :=
  match d with
  | Seconds s => refused s 1
  | Millis ms => refused ms 1000
  | Power tenths exponent => refused (tenths ^ exponent) (10 ^ exponent)
  end.

(** [time.sleep(d)] for a length that the program computes. *)
Definition time_sleep (d : duration) : M (Sys E) unit :=
  match duration_fault d with
  | Some x => raise x
  | None => sleep d
  end.

(** The state the environment is in after it has been through [evs]. *)
Fixpoint replay (evs : list event) (e : E) : E :=
  match evs with
  | [] => e
  | Called p :: rest => replay rest (answer p e).1
  | Slept d :: rest => replay rest (elapse d e)
  end.

(** [y'] comes after [y] in one run: its record continues that of [y], and
    its environment is the one of [y] after what was done since. *)
Definition reaches (y y' : Sys E) : Prop :=
  ∃ evs, events y' = events y ++ evs ∧ env y' = replay evs (env y).

End Calls.




(** The number of requests posted to the webhook. *)
Definition posts (evs : list event) : nat :=
  length (omap (λ ev, match ev with Called (HttpPost _) => Some tt | _ => None end) evs).

Definition by_css : string := "css selector".     (* By.CSS_SELECTOR *)
Definition by_xpath : string := "xpath".          (* By.XPATH *)

(** A double quote, and a text between double quotes. *)
Definition dq : string := String (Ascii.ascii_of_nat 34) EmptyString.
Definition q (s : string) : string := dq +:+ s +:+ dq.

Definition js_click : string := "arguments[0].click();".

End Env.
Import Env.

(** ** [click_with_retry]  (utils/selenium_helpers.py, 17-54) *)

Module selenium_helpers.
Section WithEnv.
Context {E : Type} `{Environment E}.

(** The function's local variable [element] outlives the iteration that
    assigned it, and is unbound before the first assignment. *)
Record Frame := {
  sys : Sys E;
  element : option elem;
}.
Definition driver {A} (m : M (Sys E) A) : M Frame A :=
  zoom sys (λ y f, {| sys := y; element := element f |}) m.
Definition assign_element (e : elem) : M Frame unit :=
  modify (λ f, {| sys := sys f; element := Some e |}).

(** The body of the inner loop, for one selector; [true] is [return True]. *)
Definition try_selector (use_js_fallback : bool) (selector : string) : M Frame bool :=
  try_except
    (e ← driver (call (SbFindElement selector));
     assign_element e;;
     (* [if element and ...]: a WebElement is true *)
     displayed ← driver (call (IsDisplayed e));
     if displayed : bool then
       enabled ← driver (call (IsEnabled e));
       if enabled : bool then
         driver (call (Click e));;
         mret true
       else mret false
     else mret false)
    Exception
    (λ x,
       if only [ElementClickInterceptedException; StaleElementReferenceException] x
       then
         if use_js_fallback then
           try_except
             (v ← gets element;
              match v with
              | Some e => driver (call (ExecuteScript js_click e));; mret true
              | None => raise (OtherException "UnboundLocalError")
              end)
             Exception
             (λ js_e, mret false)
         else mret false
       else mret false).

(** One pass of the outer loop over the whole locator list, then the wait
    before the next pass. *)
Definition attempt_pass (selectors : list string) (max_retries : Z)
    (backoff_tenths : Z) (use_js_fallback : bool) (attempt : Z) : M Frame bool :=
  clicked ← for_first selectors (try_selector use_js_fallback);
  if clicked : bool then mret true
  else
    (if bool_decide (attempt < max_retries - 1)
     then driver (time_sleep (Power backoff_tenths attempt))
     else mret tt);;
    mret false.

Definition click_with_retry (selectors : list string) (max_retries : Z)
    (backoff_tenths : Z) (use_js_fallback : bool) : M (Sys E) bool :=
  λ s,
    let '(f, r) :=
      for_first (range max_retries)
        (attempt_pass selectors max_retries backoff_tenths use_js_fallback)
        {| sys := s; element := None |} in
    (sys f, r).


(** Lines 56-74.  [element] is a WebElement, hence true. *)
Definition safe_get_text (selectors : list string) (dflt : string) : M (Sys E) string :=
  r ← for_return selectors (λ selector,
        try_except
          (e ← call (SbFindElement selector);
           text ← call (Text e);
           match truthy (Some (strip text)) with
           | Some t => mret (Some t)
           | None =>
               value ← call (GetAttribute e "value");
               match truthy value with
               | Some v => mret (Some (strip v))
               | None => mret None
               end
           end)
          Exception
          (λ x, mret None));
  mret (default dflt r).

(** Lines 76-106.  How long the wait lasts is the environment's affair: a
    wait that runs out is a [TimeoutException] among its answers. *)
Definition wait_for_element (selectors : list string) (condition : string)
    : M (Sys E) (option elem) :=
  for_return selectors (λ selector,
    try_except
      (e ← (if String.eqb condition "presence"
            then call (WaitUntil "presence_of_element_located" selector)
            else if String.eqb condition "visible"
            then call (WaitUntil "visibility_of_element_located" selector)
            else if String.eqb condition "clickable"
            then call (WaitUntil "element_to_be_clickable" selector)
            else raise ValueError);
       mret (Some e))
      Exception
      (λ x, mret None)).

Definition consent_selectors : list string :=
  ["button[data-action-type='ACCEPT']"; "#sp-cc-accept";
   "button:contains('Accept')"; "button:contains('Allow')";
   "button:contains('Continue')"; ".consent-accept";
   "[data-testid='consent-accept']"].

(** Lines 156-179. *)
Definition handle_consent_buttons : M (Sys E) bool :=
  for_first consent_selectors (λ selector,
    try_except
      (e ← call (SbFindElement selector);
       displayed ← call (IsDisplayed e);
       if displayed : bool then
         call (Click e);;
         sleep (Seconds 1);;
         mret true
       else mret false)
      Exception
      (λ x, mret false)).

(** Lines 181-192. *)
Definition scroll_to_element (selector : string) : M (Sys E) bool :=
  try_except
    (e ← call (SbFindElement selector);
     call (ExecuteScript "arguments[0].scrollIntoView(true);" e);;
     sleep (Millis 500);;
     mret true)
    Exception
    (λ x, mret false).

(** Lines 194-212. *)
Definition get_element_attribute (selectors : list string) (attribute : string)
    (dflt : option string) : M (Sys E) (option string) :=
  r ← for_return selectors (λ selector,
        try_except
          (e ← call (SbFindElement selector);
           call (GetAttribute e attribute))
          Exception
          (λ x, mret None));
  mret (match r with Some v => Some v | None => dflt end).

End WithEnv.
End selenium_helpers.

(** ** [class ShiftBooking]  (page_objects/shift_booking.py, 94-686) *)

Module ShiftBooking.

Record ShiftSlot := {
  job_id : string;
  title : string;
  location : string;
  schedule : string;
  card_index : nat;
  pay_rate : option string;
  discovered_at : option string;
}.

Section WithEnv.
Context {E : Type} `{Environment E}.

(** [self.driver] with [self.wait], [self.state] with the file system it
    saves to, and [self.fast_booking_mode]. *)
Record World := {
  sys : Sys E;
  state : ShiftBookingState.World;
  fast_booking_mode : bool;
}.

Definition driver {A} (m : M (Sys E) A) : M World A :=
  zoom sys (λ y w, {| sys := y; state := state w;
                      fast_booking_mode := fast_booking_mode w |}) m.
Definition ledger {A} (m : M ShiftBookingState.World A) : M World A :=
  zoom state (λ y w, {| sys := sys w; state := y;
                        fast_booking_mode := fast_booking_mode w |}) m.

(** [ShiftBooking(driver, state_file)] *)
Definition __init__ (file : string) (s : Sys E) (d : Disk)
    : Disk * outcome World :=
  match ShiftBookingState.__init__ file (date_today (env s)) d with
  | (d', Ret o) =>
      (d', Ret {| sys := s;
                  state := {| ShiftBookingState.self := o;
                              ShiftBookingState.disk := d' |};
                  fast_booking_mode := true |})
  | (d', Raise e) => (d', Raise e)
  end.

(** Lines 103-125.  The argument is an element or a selector. *)
Definition click_with_retry (element_or_selector : elem + string)
    (max_retries : Z) (backoff_tenths : Z) : M World bool :=
  for_first (range max_retries) (λ attempt,
    try_except
      (element ← match element_or_selector with
                 | inr selector =>
                     driver (call (WaitUntil "element_to_be_clickable" selector))
                 | inl e => mret e
                 end;
       driver (call (ExecuteScript "arguments[0].scrollIntoView(true);" element));;
       driver (sleep (Millis 500));;
       driver (call (Click element));;
       mret true)
      (only [TimeoutException; NoSuchElementException])
      (λ e,
         (if bool_decide (attempt < max_retries - 1)
          then driver (time_sleep (Power backoff_tenths attempt))
          else mret tt);;
         mret false)).

(** Lines 204-214. *)
Definition _find_text_by_selectors (parent : elem) (selectors : list string)
    : M World (option string) :=
  for_return selectors (λ selector,
    try_except
      (element ← driver (call (FindChild parent selector));
       text ← driver (call (Text element));
       mret (truthy (Some (strip text))))
      (only [NoSuchElementException])
      (λ e, mret None)).

Definition title_selectors : list string :=
  ["strong"; ".job-title"; "h3"; "h4"; "[data-testid*='title']"].
Definition location_selectors : list string :=
  [".location"; "[data-testid*='location']"; ".job-location"].
Definition schedule_selectors : list string :=
  [".schedule"; "[data-testid*='schedule']"; ".time"; ".shift-time"].
Definition pay_selectors : list string :=
  [".pay"; ".rate"; "[data-testid*='pay']"; ".wage"].

(** [f"shift_{idx}_{int(time.time())}"] *)
Definition synthesized_id (idx : nat) (now : Z) : string :=
  "shift_" +:+ pretty idx +:+ "_" +:+ pretty now.

(** Lines 186-190: the first attribute that is set and not empty, else an
    id made of the card's position and the clock. *)
Definition choose_job_id (card : elem) (idx : nat) : M World string :=
  a1 ← driver (call (GetAttribute card "data-job-id"));
  match truthy a1 with
  | Some v => mret v
  | None =>
      a2 ← driver (call (GetAttribute card "data-testid"));
      match truthy a2 with
      | Some v => mret v
      | None =>
          a3 ← driver (call (GetAttribute card "id"));
          match truthy a3 with
          | Some v => mret v
          | None =>
              now ← driver (clock time_time);
              mret (synthesized_id idx now)
          end
      end
  end.

(** The card has no attribute [name], or an empty one, whenever it is
    read. *)
Definition lacks (card : elem) (name : string) : Prop :=
  ∀ e : E,
    (answer (GetAttribute card name) e).2 = inr None ∨
    (answer (GetAttribute card name) e).2 = inr (Some EmptyString).

(** The card carries [v] as its attribute [name], whenever it is read. *)
Definition carries (card : elem) (name : string) (v : string) : Prop :=
  v ≠ EmptyString ∧
  ∀ e : E, (answer (GetAttribute card name) e).2 = inr (Some v).

(** Lines 172-202. *)
Definition _extract_slot_info (card : elem) (idx : nat) : M World (option ShiftSlot) :=
  try_except
    (t ← _find_text_by_selectors card title_selectors;
     l ← _find_text_by_selectors card location_selectors;
     s ← _find_text_by_selectors card schedule_selectors;
     p ← _find_text_by_selectors card pay_selectors;
     id ← choose_job_id card idx;
     now ← driver (clock datetime_now);        (* __post_init__ *)
     mret (Some {| job_id := id;
                   title := default ("Shift " +:+ pretty (idx + 1)%nat) t;
                   location := default "Location TBD" l;
                   schedule := default "Schedule TBD" s;
                   card_index := idx;
                   pay_rate := p;
                   discovered_at := Some now |}))
    Exception
    (λ e, mret None).

Definition card_selectors : list string :=
  ["div[data-test-id='JobCard']"; ".job-card";
   "div[class*='job'][class*='card']"; "[data-testid*='job']"].

(** Lines 147-152: the cards of the first selector that matches any. *)
Fixpoint find_cards (selectors : list string) : M World (list elem) :=
  match selectors with
  | [] => mret []
  | selector :: rest =>
      cards ← driver (call (FindElements by_css selector));
      match cards with
      | _ :: _ => mret cards
      | [] => find_cards rest
      end
  end.

(** Lines 158-167: the slots of the cards that are not booked yet. *)
Fixpoint collect_slots (cards : list (nat * elem)) (slots : list ShiftSlot)
    : M World (list ShiftSlot) :=
  match cards with
  | [] => mret slots
  | (idx, card) :: rest =>
      slots' ←
        try_except
          (slot ← _extract_slot_info card idx;
           match slot with
           | Some sl =>
               booked ← ledger (ShiftBookingState.is_already_booked (job_id sl));
               if booked : bool then mret slots else mret (slots ++ [sl])
           | None => mret slots
           end)
          Exception
          (λ e, mret slots);
      collect_slots rest slots'
  end.

(** None of the slots is in the ledger. *)
Definition unbooked (l : ShiftBookingState.World) (slots : list ShiftSlot) : Prop :=
  ∀ sl, sl ∈ slots →
        KStr (job_id sl) ∉ ShiftBookingState.booked_today (ShiftBookingState.self l).

(** The slots stand in the order of their cards on the page. *)
Definition in_page_order (slots : list ShiftSlot) : Prop :=
  ∀ i j sl sl', (i < j)%nat → slots !! i = Some sl → slots !! j = Some sl' →
                (card_index sl < card_index sl')%nat.

(** No text of the slot is empty, and the time of its discovery is set. *)
Definition filled_in (sl : ShiftSlot) : Prop :=
  title sl ≠ EmptyString ∧ location sl ≠ EmptyString ∧
  schedule sl ≠ EmptyString ∧ pay_rate sl ≠ Some EmptyString ∧
  is_Some (discovered_at sl).

(** Lines 127-170. *)
Definition discover_available_slots : M World (list ShiftSlot) :=
  loaded ←
    try_except
      (driver (call (WaitUntil "presence_of_element_located"
                       "div[data-test-id='JobCard'], .job-card"));;
       mret true)
      (only [TimeoutException])
      (λ e, mret false);
  if negb loaded then mret []
  else
    cards ← find_cards card_selectors;
    match cards with
    | [] => mret []
    | _ => collect_slots (enumerate cards) []
    end.

(** Lines 627-678. Only the first selector of each list is tried. *)
Definition _handle_shift_dropdown_fast : M World bool :=
  try_except
    (dropdown_element ←
       for_return [".jobDetailScheduleDropdown.hvh-careers-emotion-1uzwmf0"]
         (λ selector,
            try_except
              (elements ← driver (call (FindElements by_css selector));
               match elements with
               | e0 :: _ =>
                   shown ← driver (call (IsDisplayed e0));
                   mret (if shown : bool then Some e0 else None)
               | [] => mret None
               end)
              Exception
              (λ e, mret None));
     match dropdown_element with
     | None => mret true
     | Some dropdown =>
         clicked ←
           try_except
             (driver (call (Click dropdown));;
              driver (sleep (Millis 300));;
              mret true)
             Exception
             (λ e, mret false);
         if negb clicked then mret false
         else
           for_return
             ["[data-test-component=" +:+ q "StencilReactCard" +:+
              "][role=" +:+ q "button" +:+ "]"]
             (λ selector,
                try_except
                  (elements ← driver (call (FindElements by_css selector));
                   match elements with
                   | e0 :: _ =>
                       shown ← driver (call (IsDisplayed e0));
                       if shown : bool then
                         driver (call (Click e0));;
                         driver (sleep (Millis 200));;
                         mret (Some true)
                       else mret None
                   | [] => mret None
                   end)
                  Exception
                  (λ e, mret None));;
           mret true
     end)
    Exception
    (λ e, mret false).

(** The selector lists of [book_slot]. *)
Definition book_card_selectors : list string :=
  ["div[data-test-id='JobCard']"; ".job-card"; "[data-testid*='JobCard']";
   "[data-testid*='job-card']"; "div[class*='JobCard']";
   "div[class*='job-card']"; "[role='listitem']"].

Definition apply_selectors : list string :=
  ["button[data-test-id='jobDetailApplyButtonDesktop']";
   "button[data-testid*='apply']";
   "button[data-test-id*='apply']";
   "button.hvh-careers-emotion-*[style*='background-color']:contains('Apply')";
   "button[class*='hvh-careers-emotion'][style*='rgb']:contains('Apply')";
   "button:contains('Apply')";
   "button:contains('Apply Now')";
   "button:contains('APPLY')";
   ".apply-button";
   "button[class*='apply']";
   "button[aria-label*='Apply']";
   "[data-test-component*='JobDetail'] button:contains('Apply')";
   ".job-detail button:contains('Apply')";
   "button[class*='primary']";
   "button[class*='cta']";
   "button[style*='background-color']:not([style*='transparent'])";
   "div[class*='job'] button:contains('Apply')";
   "[role='main'] button:contains('Apply')"].

Definition next_button_texts : list string :=
  ["Next"; "Create Application"; "Continue"; "Submit"; "Confirm"].

Definition next_button_xpath (text : string) : string :=
  "//button[contains(translate(., 'NEXT', 'next'), '" +:+ lower text +:+ "')]".

Definition scroll_into_view_typo : string :=
  "arguments[0].scrollIntoView({behavior: 'smooth', block: 'center'}});".
Definition scroll_into_view : string :=
  "arguments[0].scrollIntoView({behavior: 'smooth', block: 'center'});".

(** Lines 240-249: every lookup is guarded. *)
Fixpoint find_cards_guarded (selectors : list string) : M World (list elem) :=
  match selectors with
  | [] => mret []
  | selector :: rest =>
      elements ←
        try_except (driver (call (FindElements by_css selector)))
          Exception (λ e, mret []);
      match elements with
      | _ :: _ => mret elements
      | [] => find_cards_guarded rest
      end
  end.

(** Lines 263-270: the four ways of clicking the card. *)
Definition click_methods (card : elem) : list (M World unit) :=
  [ driver (call (Click card));
    (driver (call (ExecuteScript scroll_into_view_typo card));;
     driver (sleep (Seconds 1));;
     driver (call (Click card)));
    driver (call (ExecuteScript js_click card));
    driver (call (ActionChainsClick card)) ].

(** Lines 363-376: one button of one apply selector. *)
Definition try_apply_button (btn : elem) : M World bool :=
  try_except
    (shown ← driver (call (IsDisplayed btn));
     if shown : bool then
       enabled ← driver (call (IsEnabled btn));
       if enabled : bool then
         driver (call (ExecuteScript scroll_into_view btn));;
         driver (sleep (Millis 500));;
         driver (call (Click btn));;
         mret true
       else mret false
     else mret false)
    Exception
    (λ e, mret false).

(** Lines 357-383. *)
Definition try_apply_selector (selector : string) : M World bool :=
  try_except
    (elements ← driver (call (FindElements by_css selector));
     for_first elements try_apply_button)
    Exception
    (λ e, mret false).

(** Lines 354-391. *)
Definition click_apply : M World bool :=
  for_first (range 3) (λ attempt,
    clicked ← for_first apply_selectors try_apply_selector;
    if clicked : bool then mret true
    else
      (if bool_decide (attempt < 3 - 1)
       then driver (sleep (Seconds 2))
       else mret tt);;
      mret false).

(** Lines 399-412: whatever these buttons do, the flow goes on. *)
Definition click_next_buttons : M World unit :=
  for_each next_button_texts (λ text,
    try_except
      (elements ← driver (call (FindElements by_xpath (next_button_xpath text)));
       for_first elements (λ btn,
         shown ← driver (call (IsDisplayed btn));
         if shown : bool then
           enabled ← driver (call (IsEnabled btn));
           if enabled : bool then
             driver (call (Click btn));;
             driver (sleep (Seconds 2));;
             mret true
           else mret false
         else mret false);;
       mret tt)
      Exception
      (λ e, mret tt)).

(** Lines 300-309. *)
Definition handle_dropdown : M World unit :=
  try_except
    (dropdown_result ← _handle_shift_dropdown_fast;
     if negb dropdown_result
     then driver (call HandleShiftDropdown);; mret tt
     else mret tt)
    Exception
    (λ e, mret tt).

(** Lines 216-421. *)
Definition book_slot (slot : ShiftSlot) : M World bool :=
  try_except
    (try_except (driver (call Screenshot)) Exception (λ e, mret tt);;
     cards ← find_cards_guarded book_card_selectors;
     match cards !! card_index slot with
     | None => mret false           (* no card, or index out of range *)
     | Some card =>
         card_clicked ←
           for_first (click_methods card) (λ click_method,
             try_except (click_method;; mret true) Exception (λ e, mret false));
         if negb card_clicked then mret false
         else
           fast ← gets fast_booking_mode;
           driver (sleep (if fast : bool then Millis 500 else Seconds 2));;
           (if fast : bool
            then try_except (driver (call CurrentUrl);; mret tt)
                   Exception (λ e, mret tt)
            else mret tt);;
           handle_dropdown;;
           (if fast : bool then mret tt else driver (sleep (Seconds 1)));;
           apply_clicked ← click_apply;
           if negb apply_clicked then mret false
           else
             driver (sleep (Seconds 3));;
             click_next_buttons;;
             ledger (ShiftBookingState.mark_as_booked (job_id slot));;
             mret true
     end)
    Exception
    (λ e, mret false).

End WithEnv.
End ShiftBooking.

(** ** [EnhancedDiscordNotifier.send]  (enhanced_notifier.py, 68-154)

    The text of a message has no influence on the control flow and is left
    out. *)

Module EnhancedDiscordNotifier.

Record t := {
  webhook : option string;
}.

(** Lines 410-421.  [//] and [%] round towards minus infinity, as [`div`]
    and [`mod`] do for a positive divisor. *)
Definition _format_duration (seconds : Z) : string :=
  let hours := seconds `div` 3600 in
  let minutes := (seconds `mod` 3600) `div` 60 in
  let secs := seconds `mod` 60 in
  if bool_decide (hours > 0)
  then pretty hours +:+ "h " +:+ pretty minutes +:+ "m " +:+ pretty secs +:+ "s"
  else if bool_decide (minutes > 0)
  then pretty minutes +:+ "m " +:+ pretty secs +:+ "s"
  else pretty secs +:+ "s".

Section WithEnv.
Context {E : Type} `{Environment E}.

Definition timeout_values : list Z := [5; 10; 15; 20; 30].

(** Lines 141-159. *)
Definition _send_fallback_notification (urgent : bool) : M (Sys E) unit :=
  try_except
    (call (AppendLine "discord_failures.log");;
     if urgent
     then try_except (call OsSystem) Exception (λ e, mret tt)
     else mret tt)
    Exception
    (λ e, mret tt).

(** One round of the loop of lines 81-135: [Some true] is [return True],
    [None] goes to the next round. *)
Definition send_attempt (max_retries attempt : Z) : M (Sys E) (option bool) :=
  r ← try_except
        (response ←
           call (HttpPost (default 30 (timeout_values !! Z.to_nat (Z.min attempt 4))));
         if bool_decide (status_code response = 204) then mret (Some (Some true))
         else if bool_decide (status_code response = 429) then
           match retry_after response with
           | Some d =>
               time_sleep (Seconds d);;
               mret (Some None)                    (* continue *)
           | None => raise ValueError
           end
         else mret None)
        Exception
        (λ e, mret None);
  match r with
  | Some v => mret v
  | None =>
      (if bool_decide (attempt < max_retries - 1)
       then sleep (Seconds (Z.min (2 ^ attempt) 30))
       else mret tt);;
      mret None
  end.

Definition send (self : t) (urgent : bool) (max_retries : Z) : M (Sys E) bool :=
  match truthy (webhook self) with
  | None => mret false
  | Some _ =>
      r ← for_return (range max_retries) (send_attempt max_retries);
      match r with
      | Some sent => mret sent
      | None => _send_fallback_notification urgent;; mret false
      end
  end.

End WithEnv.
End EnhancedDiscordNotifier.

(** ** [class BulletproofBookingService]  (services/bulletproof_booking.py) *)

Module BulletproofBookingService.

Inductive strategy :=
| direct_click
| javascript_click
| action_chains_click
| coordinate_click.

Section WithEnv.
Context {E : Type} `{Environment E}.

Record Service := {
  sys : Sys E;                                     (* self.driver *)
  notifier : option EnhancedDiscordNotifier.t;
  booking_success_count : Z;
  booking_failure_count : Z;
}.

Definition max_booking_retries : Z := 5.
Definition max_click_retries : Z := 3.

(** What the methods that only drive the browser leave alone. *)
Definition tallies (s : Service) :=
  (notifier s, booking_success_count s, booking_failure_count s).

Definition driver {A} (m : M (Sys E) A) : M Service A :=
  zoom sys (λ y s, {| sys := y; notifier := notifier s;
                      booking_success_count := booking_success_count s;
                      booking_failure_count := booking_failure_count s |}) m.

(** Lines 408-412: [min(2 ** attempt, 10)] seconds. *)
Definition _recovery_delay (attempt : Z) : M Service unit :=
  driver (sleep (Seconds (Z.min (2 ^ attempt) 10))).

(** Lines 175-204. *)
Definition _execute_click_strategy (element : elem) (s : strategy) : M Service bool :=
  try_except
    (match s with
     | direct_click => driver (call (Click element))
     | javascript_click => driver (call (ExecuteScript js_click element))
     | action_chains_click => driver (call (ActionChainsClick element))
     | coordinate_click => driver (call (ActionChainsClick element))
     end;;
     driver (sleep (Seconds 1));;
     mret true)
    Exception
    (λ e, mret false).

Definition card_selectors : list string :=
  ["div[data-test-id=" +:+ q "JobCard" +:+ "]";
   "[data-test-component=" +:+ q "StencilReactCard" +:+ "][data-test-id="
     +:+ q "JobCard" +:+ "]";
   ".jobCardItem";
   "[role=" +:+ q "link" +:+ "][data-test-id=" +:+ q "JobCard" +:+ "]";
   "div.pointer.focusableItem.jobCardItem"].

Definition click_strategies : list strategy :=
  [direct_click; javascript_click; action_chains_click; coordinate_click].

(** Lines 142-151: the first card whose text holds the job's title. *)
Definition find_target (job_data : job) (elements : list elem) : M Service (option elem) :=
  for_return elements (λ element,
    try_except
      (text ← driver (call (Text element));
       let element_text := lower text in
       let job_title := lower (default EmptyString (Env.title job_data)) in
       mret (if bool_decide (job_title ≠ EmptyString) && contains job_title element_text
             then Some element else None))
      Exception
      (λ e, mret None)).

(** Lines 114-173. *)
Definition _click_job_card_bulletproof (job_data : job) (base_attempt : Z)
    : M Service bool :=
  for_first card_selectors (λ selector,
    try_except
      (elements ← driver (call (FindElements by_css selector));
       match elements with
       | [] => mret false
       | first :: _ =>
           target ← find_target job_data elements;
           let target_element := default first target in
           for_first click_strategies (λ s,
             try_except (_execute_click_strategy target_element s)
               Exception (λ e, mret false))
       end)
      Exception
      (λ e, mret false)).

Definition dropdown_selectors : list string :=
  [".jobDetailScheduleDropdown";
   "div:contains(" +:+ q "Select one" +:+ ")";
   "[data-test-component=" +:+ q "StencilReactSelect" +:+ "]"].

Definition option_selectors : list string :=
  ["[data-test-component=" +:+ q "StencilReactCard" +:+ "][role="
     +:+ q "button" +:+ "]";
   "[role=" +:+ q "button" +:+ "]:contains(" +:+ q "shift" +:+ ")";
   ".dropdown-option"].

(** Lines 206-249. *)
Definition _handle_booking_modals_bulletproof : M Service unit :=
  try_except
    (driver (sleep (Seconds 1));;
     for_first dropdown_selectors (λ selector,
       try_except
         (elements ← driver (call (FindElements by_css selector));
          match elements with
          | e0 :: _ =>
              shown ← driver (call (IsDisplayed e0));
              if shown : bool then
                driver (call (Click e0));;
                driver (sleep (Millis 500));;
                for_first option_selectors (λ option_selector,
                  try_except
                    (options ← driver (call (FindElements by_css option_selector));
                     match options with
                     | o0 :: _ =>
                         oshown ← driver (call (IsDisplayed o0));
                         if oshown : bool then
                           driver (call (Click o0));;
                           driver (sleep (Millis 500));;
                           mret true
                         else mret false
                     | [] => mret false
                     end)
                    Exception
                    (λ e, mret false));;
                mret true
              else mret false
          | [] => mret false
          end)
         Exception
         (λ e, mret false));;
     mret tt)
    Exception
    (λ e, mret tt).

Definition apply_selectors : list string :=
  ["button[data-test-id=" +:+ q "jobDetailApplyButtonDesktop" +:+ "]";
   "button:contains(" +:+ q "Apply" +:+ ")";
   "[data-test-id*=" +:+ q "apply" +:+ "]";
   "button.apply-button";
   ".apply-btn"].

(** Lines 251-288. *)
Definition _click_apply_button_bulletproof (base_attempt : Z) : M Service bool :=
  for_first (range max_click_retries) (λ attempt,
    clicked ←
      for_first apply_selectors (λ selector,
        try_except
          (elements ← driver (call (FindElements by_css selector));
           for_first elements (λ element,
             shown ← driver (call (IsDisplayed element));
             if shown : bool then
               enabled ← driver (call (IsEnabled element));
               if enabled : bool then
                 for_first [direct_click; javascript_click] (λ s,
                   try_except
                     (match s with
                      | direct_click => driver (call (Click element))
                      | _ => driver (call (ExecuteScript js_click element))
                      end;;
                      driver (sleep (Seconds 2));;
                      mret true)
                     Exception
                     (λ e, mret false))
               else mret false
             else mret false))
          Exception
          (λ e, mret false));
    if clicked : bool then mret true
    else
      (if bool_decide (attempt < max_click_retries - 1)
       then driver (sleep (Seconds 2))
       else mret tt);;
      mret false).

Definition success_indicators : list string :=
  ["div:contains(" +:+ q "Application submitted" +:+ ")";
   "div:contains(" +:+ q "Thank you" +:+ ")";
   "div:contains(" +:+ q "Success" +:+ ")";
   "div:contains(" +:+ q "Confirmation" +:+ ")";
   ".success-message";
   ".confirmation-message"].

Definition completion_url_patterns : list string :=
  ["confirmation"; "success"; "thank-you"; "application-complete"].

(** Lines 367-406. *)
Definition _check_booking_completion : M Service bool :=
  try_except
    (found ←
       for_first success_indicators (λ indicator,
         try_except
           (elements ← driver (call (FindElements by_css indicator));
            match elements with
            | e0 :: _ => driver (call (IsDisplayed e0))
            | [] => mret false
            end)
           Exception
           (λ e, mret false));
     if found : bool then mret true
     else
       current_url ← driver (call CurrentUrl);
       mret (existsb (λ pattern, contains pattern (lower current_url))
               completion_url_patterns))
    Exception
    (λ e, mret false).

(** What a completion check looks for, as the site shows it in the state
    [e], with the calls that see it: a lookup by one of the indicator
    selectors finds an element that is then reported displayed, or the
    address that is read holds one of the completion patterns. *)
Definition indicator_shown (e : E) (seen : list event) : Prop :=
  ∃ indicator e1 e0 more,
    indicator ∈ success_indicators ∧
    answer (FindElements by_css indicator) e = (e1, inr (e0 :: more)) ∧
    (answer (IsDisplayed e0) e1).2 = inr true ∧
    seen = [Called (FindElements by_css indicator); Called (IsDisplayed e0)].
Definition completion_address (e : E) (seen : list event) : Prop :=
  ∃ url pattern,
    (answer CurrentUrl e).2 = inr url ∧
    pattern ∈ completion_url_patterns ∧
    contains pattern (lower url) = true ∧
    seen = [Called CurrentUrl].
Definition success_observed (e : E) : Prop :=
  ∃ seen, indicator_shown e seen ∨ completion_address e seen.

(** On the way from [y] to [y'] the program has looked at the site in a
    state that showed the success: the record of [y'] is that of [y], then
    what was done [before], then the calls that saw the success, then what
    came [after]. *)
Definition observed_between (y y' : Sys E) : Prop :=
  ∃ before seen after,
    events y' = events y ++ before ++ seen ++ after ∧
    env y' = replay (before ++ seen ++ after) (env y) ∧
    (indicator_shown (replay before (env y)) seen ∨
     completion_address (replay before (env y)) seen).

(** The outcomes that tell a success, for the three kinds of computation
    of the service. *)
Definition says_true (r : outcome bool) : bool :=
  match r with Ret true => true | _ => false end.
Definition says_some_true (r : outcome (option bool)) : bool :=
  match r with Ret (Some true) => true | _ => false end.
Definition silent {A} (r : outcome A) : bool := false.

(** [sees proj good m]: a computation over a state that holds the
    environment at [proj] continues the record of the environment, and in
    the runs whose outcome [good] marks it has seen the success. *)
Definition sees {S A} (proj : S → Sys E) (good : outcome A → bool) (m : M S A) : Prop :=
  ∀ s, reaches (proj s) (proj (m s).1) ∧
       (good (m s).2 = true → observed_between (proj s) (proj (m s).1)).

Definition flow_button_texts : list string :=
  ["Next"; "Continue"; "Create Application"; "Submit"; "Confirm"; "Apply Now"].

(** Lines 317-321. *)
Definition flow_selectors (button_text : string) : list string :=
  ["button:contains(" +:+ q button_text +:+ ")";
   "//button[contains(text(), " +:+ q button_text +:+ ")]";
   "[data-test-id*=" +:+ q (lower button_text) +:+ "]"].

(** Lines 313-347: the value of [button_clicked] after the loop. *)
Definition click_flow_button : M Service bool :=
  for_first flow_button_texts (λ button_text,
    try_except
      (for_first (flow_selectors button_text) (λ selector,
         try_except
           (elements ←
              (if String.prefix "//" selector
               then driver (call (FindElements by_xpath selector))
               else driver (call (FindElements by_css selector)));
            for_first elements (λ element,
              shown ← driver (call (IsDisplayed element));
              if shown : bool then
                enabled ← driver (call (IsEnabled element));
                if enabled : bool then
                  driver (call (Click element));;
                  driver (sleep (Seconds 2));;
                  mret true
                else mret false
              else mret false))
           Exception
           (λ e, mret false)))
      Exception
      (λ e, mret false)).

Definition max_flow_attempts : Z := 5.

(** One round of the loop of lines 305-362: [Some true] is [return True],
    [None] goes to the next round. *)
Definition flow_attempt_body (flow_attempt : Z) : M Service (option bool) :=
  try_except
    (completed ← _check_booking_completion;
     if completed : bool then mret (Some true)
     else
       button_clicked ← click_flow_button;
       if negb button_clicked then
         completed' ← _check_booking_completion;
         if completed' : bool then mret (Some true)
         else
           (if bool_decide (flow_attempt < max_flow_attempts - 1)
            then driver (sleep (Seconds 2))
            else mret tt);;
           mret None
       else mret None)
    Exception
    (λ e,
       (if bool_decide (flow_attempt < max_flow_attempts - 1)
        then driver (sleep (Seconds 2))
        else mret tt);;
       mret None).

(** Lines 290-365. *)
Definition _complete_application_flow_bulletproof (base_attempt : Z) : M Service bool :=
  r ← for_return (range max_flow_attempts) flow_attempt_body;
  match r with
  | Some v => mret v
  | None => _check_booking_completion
  end.

(** [notify_instant_booking_attempt(job_data)] reads [job.title] of what is
    a [dict] here, and [notify_instant_booking_success] is called with the
    keywords [booking_id] and [attempt_number], which it does not take: both
    calls raise before they send anything. *)
Definition notify_instant_booking_attempt : M Service unit := raise AttributeError.
Definition notify_instant_booking_success : M Service unit := raise TypeError.

(** Lines 28-32, 73-90, 105-110: [if self.notifier: try: ... except Exception]. *)
Definition notifying (m : EnhancedDiscordNotifier.t → M Service unit) : M Service unit :=
  n ← gets notifier;
  match n with
  | Some self_notifier => try_except (m self_notifier) Exception (λ e, mret tt)
  | None => mret tt
  end.

(** Lines 39-45, 51-57, 60-66: a step that failed. *)
Definition retry_or_fail (attempt : Z) : M Service (option bool) :=
  if bool_decide (attempt < max_booking_retries - 1)
  then _recovery_delay attempt;; mret None         (* continue *)
  else mret (Some false).                          (* return False *)

(** One round of the loop of lines 34-98. *)
Definition booking_attempt (job_data : job) (attempt : Z) : M Service (option bool) :=
  try_except
    (card_clicked ← _click_job_card_bulletproof job_data attempt;
     if negb card_clicked then retry_or_fail attempt
     else
       _handle_booking_modals_bulletproof;;
       apply_clicked ← _click_apply_button_bulletproof attempt;
       if negb apply_clicked then retry_or_fail attempt
       else
         application_completed ← _complete_application_flow_bulletproof attempt;
         if negb application_completed then retry_or_fail attempt
         else
           modify (λ s, {| sys := sys s; notifier := notifier s;
                           booking_success_count := booking_success_count s + 1;
                           booking_failure_count := booking_failure_count s |});;
           notifying (λ n, notify_instant_booking_success);;
           mret (Some true))
    Exception
    (λ e,
       (if bool_decide (attempt < max_booking_retries - 1)
        then _recovery_delay attempt
        else mret tt);;
       mret None).

(** Lines 19-112. *)
Definition attempt_bulletproof_booking (job_data : job) (correlation_id : string)
    : M Service bool :=
  notifying (λ n, notify_instant_booking_attempt);;
  r ← for_return (range max_booking_retries) (booking_attempt job_data);
  match r with
  | Some v => mret v
  | None =>
      modify (λ s, {| sys := sys s; notifier := notifier s;
                      booking_success_count := booking_success_count s;
                      booking_failure_count := booking_failure_count s + 1 |});;
      notifying (λ n, driver (EnhancedDiscordNotifier.send n true 5);; mret tt);;
      mret false
  end.

End WithEnv.
End BulletproofBookingService.

(** ** [class BulletproofMonitor]  (bulletproof_monitor.py)

    Signals are not delivered in this model: [running] changes only where
    the code assigns it. *)

Module BulletproofMonitor.

Record Config := {
  check_interval : Z;          (* config.monitoring.check_interval *)
  per_cycle_limit : Z;         (* config.booking.per_cycle_limit *)
  daily_limit : Z;             (* config.booking.daily_limit *)
}.

(** [EnhancedIntegratedMonitor]: whether [initialize_components] has set its
    [job_reporter]. *)
Record MainMonitor := {
  job_reporter_set : bool;
}.

(** The counters of a [BulletproofBookingService]. *)
Record Counters := {
  success_count : Z;
  failure_count : Z;
}.

Section WithEnv.
Context {E : Type} `{Environment E}.

Record Monitor := {
  sys : Sys E;
  config : Config;
  running : bool;
  cycle_count : Z;
  total_bookings : Z;
  notifier : option EnhancedDiscordNotifier.t;
  booking_service : option Counters;
  main_monitor : option MainMonitor;
}.

Definition driver {A} (m : M (Sys E) A) : M Monitor A :=
  zoom sys (λ y s, {| sys := y; config := config s; running := running s;
                      cycle_count := cycle_count s;
                      total_bookings := total_bookings s;
                      notifier := notifier s;
                      booking_service := booking_service s;
                      main_monitor := main_monitor s |}) m.
Definition set_running (b : bool) : M Monitor unit :=
  modify (λ s, {| sys := sys s; config := config s; running := b;
                  cycle_count := cycle_count s;
                  total_bookings := total_bookings s;
                  notifier := notifier s;
                  booking_service := booking_service s;
                  main_monitor := main_monitor s |}).
Definition set_cycle_count (n : Z) : M Monitor unit :=
  modify (λ s, {| sys := sys s; config := config s; running := running s;
                  cycle_count := n;
                  total_bookings := total_bookings s;
                  notifier := notifier s;
                  booking_service := booking_service s;
                  main_monitor := main_monitor s |}).
Definition set_total_bookings (n : Z) : M Monitor unit :=
  modify (λ s, {| sys := sys s; config := config s; running := running s;
                  cycle_count := cycle_count s;
                  total_bookings := n;
                  notifier := notifier s;
                  booking_service := booking_service s;
                  main_monitor := main_monitor s |}).
Definition set_booking_service (c : option Counters) : M Monitor unit :=
  modify (λ s, {| sys := sys s; config := config s; running := running s;
                  cycle_count := cycle_count s;
                  total_bookings := total_bookings s;
                  notifier := notifier s;
                  booking_service := c;
                  main_monitor := main_monitor s |}).
Definition set_main_monitor (m : option MainMonitor) : M Monitor unit :=
  modify (λ s, {| sys := sys s; config := config s; running := running s;
                  cycle_count := cycle_count s;
                  total_bookings := total_bookings s;
                  notifier := notifier s;
                  booking_service := booking_service s;
                  main_monitor := m |}).

(** A method of [self.booking_service]; with no service the attribute
    lookup on [None] raises. *)
Definition service {A} (m : M BulletproofBookingService.Service A) : M Monitor A :=
  λ s,
    match booking_service s with
    | None => (s, Raise AttributeError)
    | Some c =>
        let '(v, r) :=
          m {| BulletproofBookingService.sys := sys s;
               BulletproofBookingService.notifier := notifier s;
               BulletproofBookingService.booking_success_count := success_count c;
               BulletproofBookingService.booking_failure_count := failure_count c |} in
        ({| sys := BulletproofBookingService.sys v; config := config s;
            running := running s; cycle_count := cycle_count s;
            total_bookings := total_bookings s; notifier := notifier s;
            booking_service :=
              Some {| success_count := BulletproofBookingService.booking_success_count v;
                      failure_count := BulletproofBookingService.booking_failure_count v |};
            main_monitor := main_monitor s |}, r)
    end.

Definition job_search_url : string := "https://hiring.amazon.com/app#/jobSearch".

(** [with SB(uc=True, headless=False) as sb: body].  The browser is closed
    on the way out, also when the body raises; an exception of the body or
    of the closing leaves the block. *)
Definition with_SB {A} (body : M Monitor A) : M Monitor A :=
  driver (call SbEnter);;
  ((λ s, let '(s1, r) := body s in
         match driver (call SbExit) s1 with
         | (s2, Ret _) => (s2, r)
         | (s2, Raise e) => (s2, Raise e)
         end) : M Monitor A).

(** Lines 212-223. *)
Definition navigate : M Monitor bool :=
  for_first (range 3) (λ nav_attempt,
    try_except
      (driver (call (SbOpen job_search_url));;
       driver (sleep (Seconds 2));;
       mret true)
      Exception
      (λ nav_e,
         (if bool_decide (nav_attempt < 2)
          then driver (sleep (Seconds 3))
          else mret tt);;
         mret false)).

(** One round of the loop of lines 205-248: [Some jobs] is [return jobs]. *)
Definition search_attempt (attempt : Z) : M Monitor (option (list job)) :=
  try_except
    (mm ← gets main_monitor;
     match mm with
     | Some m =>
         navigation_success ← navigate;
         if negb navigation_success then
           if bool_decide (attempt < 3 - 1)
           then driver (sleep (Seconds 5));; mret None
           else mret (Some [])
         else
           extracted ←
             try_except
               ((* hasattr(self.main_monitor, 'job_reporter') holds *)
                if job_reporter_set m
                then jobs ← driver (call ExtractJobs); mret (Some jobs)
                else raise AttributeError)
               Exception
               (λ e, mret None);
           mret (Some (default [] extracted))
     | None => mret (Some [])
     end)
    Exception
    (λ e,
       (if bool_decide (attempt < 3 - 1)
        then driver (sleep (Seconds 5))
        else mret tt);;
       mret None).

(** Lines 200-251. *)
Definition _search_jobs_bulletproof : M Monitor (list job) :=
  r ← for_return (range 3) search_attempt;
  mret (default [] r).

(** [f"{self.cycle_count}-{job_idx + 1}"] *)
Definition correlation_id (cycle : Z) (job_idx : nat) : string :=
  pretty cycle +:+ "-" +:+ pretty (job_idx + 1)%nat.

(** The loop of lines 265-293, with the local [bookings_made]; [inl] is a
    [break]. *)
Definition process_job (job_idx : nat) (j : job) (bookings_made : Z) : M Monitor (Z + Z) :=
  try_except
    (c ← gets config;
     if bool_decide (bookings_made >= per_cycle_limit c) then mret (inl bookings_made)
     else
       total ← gets total_bookings;
       if bool_decide (total >= daily_limit c) then
         set_running false;;
         mret (inl bookings_made)
       else
         cycle ← gets cycle_count;
         booking_success ←
           service (BulletproofBookingService.attempt_bulletproof_booking j
                      (correlation_id cycle job_idx));
         if booking_success : bool then
           driver (sleep (Seconds 2));;
           mret (inr (bookings_made + 1))
         else mret (inr bookings_made))
    Exception
    (λ e, mret (inr bookings_made)).

Fixpoint process_jobs (jobs : list (nat * job)) (bookings_made : Z) : M Monitor Z :=
  match jobs with
  | [] => mret bookings_made
  | (job_idx, j) :: rest =>
      r ← process_job job_idx j bookings_made;
      match r with
      | inl made => mret made
      | inr made => process_jobs rest made
      end
  end.

(** Lines 253-295. *)
Definition _process_jobs_bulletproof (jobs : list job) : M Monitor Z :=
  match jobs with
  | [] => mret 0
  | _ => process_jobs (enumerate (take 10 jobs)) 0
  end.

(** Lines 164-198. *)
Definition _run_bulletproof_cycle : M Monitor bool :=
  try_except
    (with_SB
       (set_booking_service (Some {| success_count := 0; failure_count := 0 |});;
        session_valid ← driver (call ValidateSession);
        if negb session_valid then mret false
        else
          mm ← gets main_monitor;
          match mm with
          | None =>
              driver (call NewMainMonitor);;
              set_main_monitor (Some {| job_reporter_set := false |});;
              driver (call InitializeComponents);;
              set_main_monitor (Some {| job_reporter_set := true |})
          | Some _ => mret tt
          end;;
          jobs_found ← _search_jobs_bulletproof;
          bookings_made ← _process_jobs_bulletproof jobs_found;
          total ← gets total_bookings;
          set_total_bookings (total + bookings_made);;
          mret true))
    Exception
    (λ e, mret false).

(** Lines 297-322. *)
Definition _send_cycle_summary (cycle_success : bool) : M Monitor unit :=
  n ← gets notifier;
  match n with
  | None => mret tt
  | Some self_notifier =>
      try_except
        (cycle ← gets cycle_count;
         if bool_decide (cycle `mod` 5 = 0)
         then driver (EnhancedDiscordNotifier.send self_notifier false 5);; mret tt
         else mret tt)
        Exception
        (λ e, mret tt)
  end.

(** Lines 324-338. *)
Definition _wait_for_next_cycle : M Monitor unit :=
  try_except
    (c ← gets config;
     for_first (range (check_interval c)) (λ i,
       r ← gets running;
       if negb r then mret true
       else driver (sleep (Seconds 1));; mret false);;
     mret tt)
    Exception
    (λ e, driver (sleep (Seconds 60))).

(** Lines 340-373. *)
Definition _enter_recovery_mode : M Monitor unit :=
  try_except
    (n ← gets notifier;
     match n with
     | Some self_notifier =>
         driver (EnhancedDiscordNotifier.send self_notifier true 5);; mret tt
     | None => mret tt
     end;;
     driver (sleep (Seconds 120));;
     set_main_monitor None;;
     set_booking_service None)
    Exception
    (λ e, driver (sleep (Seconds 60))).

(** The locals of [_run_monitoring_loop], kept in the state so that the
    handler sees what the [try] block assigned; [recoveries] counts the
    calls of [_enter_recovery_mode] that the loop has made. *)
Record Loop := {
  monitor : Monitor;
  consecutive_failures : Z;
  recoveries : nat;
}.

Definition max_failures : Z := 10.

Definition self_ {A} (m : M Monitor A) : M Loop A :=
  zoom monitor (λ y l, {| monitor := y;
                          consecutive_failures := consecutive_failures l;
                          recoveries := recoveries l |}) m.
Definition set_consecutive_failures (f : Z → Z) : M Loop unit :=
  modify (λ l, {| monitor := monitor l;
                  consecutive_failures := f (consecutive_failures l);
                  recoveries := recoveries l |}).
Definition recover : M Loop unit :=
  modify (λ l, {| monitor := monitor l;
                  consecutive_failures := consecutive_failures l;
                  recoveries := S (recoveries l) |});;
  self_ _enter_recovery_mode;;
  set_consecutive_failures (λ _, 0).

(** The body of the [while] of lines 117-162. *)
Definition iteration : M Loop unit :=
  cycle ← self_ (gets cycle_count);
  self_ (set_cycle_count (cycle + 1));;
  try_except
    (cycle_result ← self_ _run_bulletproof_cycle;
     (if cycle_result : bool
      then set_consecutive_failures (λ _, 0)
      else set_consecutive_failures (λ n, n + 1));;
     failures ← gets consecutive_failures;
     (if bool_decide (failures >= max_failures) then recover else mret tt);;
     self_ (_send_cycle_summary cycle_result);;
     r ← self_ (gets running);
     if r : bool then self_ _wait_for_next_cycle else mret tt)
    Exception
    (λ e,
       set_consecutive_failures (λ n, n + 1);;
       failures ← gets consecutive_failures;
       if bool_decide (failures >= max_failures) then recover
       else self_ (driver (sleep (Seconds (Z.min (failures * 10) 60))))).




(** [s'] comes later than [s] in one run: the record of the run goes on,
    the main monitor is the one of [s], and a booking service that [s] has
    is not dropped. *)
Definition later (s s' : Monitor) : Prop :=
  reaches (sys s) (sys s') ∧
  main_monitor s' = main_monitor s ∧
  (is_Some (booking_service s) → is_Some (booking_service s')).

(** What a cycle leaves alone but for the total it adds to at its end. *)
Definition settings (s : Monitor) := (config s, cycle_count s, total_bookings s).


(** [while self.running: ...], for at most [fuel] rounds.  The result tells
    whether the loop has ended. *)
Fixpoint while_running (fuel : nat) : M Loop bool :=
  match fuel with
  | O => r ← self_ (gets running); mret (negb r)
  | S fuel' =>
      r ← self_ (gets running);
      if r : bool then iteration;; while_running fuel' else mret true
  end.

(** Lines 112-162: the loop from its start, for at most [fuel] rounds. *)
Definition _run_monitoring_loop (fuel : nat) (s : Monitor) : Loop * outcome bool :=
  while_running fuel {| monitor := s; consecutive_failures := 0; recoveries := 0 |}.

End WithEnv.
End BulletproofMonitor.

(** ** Concrete environments and states *)

Module Scenario.

(** *** Ledgers *)

(** A ledger with nothing booked, over a disk that holds no file. *)
Definition blank (file today : string) (f : fault) : ShiftBookingState.World :=
  {| ShiftBookingState.self :=
       {| ShiftBookingState.state_file := file;
          ShiftBookingState.booked_today := ∅;
          ShiftBookingState.daily_count := JNum 0;
          ShiftBookingState.last_reset_date := today |};
     ShiftBookingState.disk := {| files := ∅; faults := λ _, f |} |}.

(** A ledger that has booked and stored one job earlier the same day. *)
Definition stored (f : fault) : ShiftBookingState.World :=
  let s := {| ShiftBookingState.state_file := "booking_state.json";
              ShiftBookingState.booked_today := {[KStr "JOB-0"]};
              ShiftBookingState.daily_count := JNum 1;
              ShiftBookingState.last_reset_date := "2025-01-15" |} in
  {| ShiftBookingState.self := s;
     ShiftBookingState.disk :=
       {| files := {["booking_state.json" :=
                       Holding (Doc (ShiftBookingState.record_of s))]};
          faults := λ _, f |} |}.

(** A disk with one file. *)
Definition holding (p : string) (f : file) : Disk :=
  {| files := {[p := f]}; faults := λ _, NoFault |}.

(** A ledger file of the day whose counter is a text: one booking, counted
    as ["1"]. *)
Definition text_counter : Disk :=
  holding "booking_state.json"
    (Holding (Doc (JObj [("booked_today", JArr [JStr "JOB-0"]);
                         ("daily_count", JStr "1");
                         ("last_reset_date", JStr "2025-01-15")]))).

(** *** A page on which nothing is found *)

Inductive Nothing := nothing.

#[global] Instance nothing_env : Environment Nothing := {|
  answer A p e :=
    (e, match p with
        | SbFindElement _ | FindChild _ _ => inl NoSuchElementException
        | WaitUntil _ _ => inl WebDriverException
        | _ => inl WebDriverException
        end);
  elapse d e := e;
  time_time e := 1736899200;
  date_today e := "2025-01-15";
  datetime_now e := "2025-01-15T00:00:00";
|}.

(** *** A page on which every wait runs out *)

Inductive Slow := slow.

#[global] Instance slow_env : Environment Slow := {|
  answer A p e :=
    (e, match p with
        | WaitUntil _ _ => inl TimeoutException
        | SbFindElement _ | FindChild _ _ => inl NoSuchElementException
        | _ => inl WebDriverException
        end);
  elapse d e := e;
  time_time e := 1736899200;
  date_today e := "2025-01-15";
  datetime_now e := "2025-01-15T00:00:00";
|}.

(** *** A page whose control goes stale when it is looked at *)

Inductive Stale := stale.

#[global] Instance stale_env : Environment Stale := {|
  answer A p e :=
    (e, match p in prim T return exn + T with
        | SbFindElement _ => inr 7%nat
        | IsDisplayed _ => inl StaleElementReferenceException
        | ExecuteScript _ _ => inr tt
        | _ => inl WebDriverException
        end);
  elapse d e := e;
  time_time e := 1736899200;
  date_today e := "2025-01-15";
  datetime_now e := "2025-01-15T00:00:00";
|}.

(** *** A page with one job card

    The card is found, opens, and shows an apply button that can be
    clicked; nothing on the page, and nothing in its address, ever tells
    that an application went through.  The state is the clock; [native] is
    the card's [data-job-id], if it has one. *)

Inductive Page (native : option string) := page (clock : Z).

Definition page_clock {native} (e : Page native) : Z := let 'page _ c := e in c.

Definition page_answer (native : option string) {A} (p : prim A) : exn + A :=
  match p in prim T return exn + T with
  | Screenshot => inr tt
  | WaitUntil _ _ => inr 0%nat
  | FindElements _ selector =>
      inr (if bool_decide (selector = "div[data-test-id='JobCard']") then [0%nat]
           else if bool_decide
                     (selector = "button[data-test-id='jobDetailApplyButtonDesktop']")
                then [1%nat]
                else [])
  | FindChild _ selector =>
      if bool_decide (selector = "strong") then inr 10%nat
      else if bool_decide (selector = ".location") then inr 11%nat
      else inl NoSuchElementException
  | Text el =>
      inr (if bool_decide (el = 10%nat) then "Warehouse Associate"
           else if bool_decide (el = 11%nat) then " Toronto, ON "
           else EmptyString)
  | GetAttribute _ name =>
      inr (if bool_decide (name = "data-job-id") then native else None)
  | IsDisplayed _ => inr true
  | IsEnabled _ => inr true
  | Click _ => inr tt
  | ExecuteScript _ _ => inr tt
  | ActionChainsClick _ => inr tt
  | CurrentUrl => inr "https://hiring.amazon.com/app#/jobDetail"
  | _ => inl WebDriverException
  end.

#[global] Instance page_env native : Environment (Page native) := {|
  answer A p e := (e, page_answer native p);
  elapse d e :=
    page native (page_clock e + match d with
                                | Seconds n => n
                                | Millis ms => ms `div` 1000
                                | Power _ _ => 1
                                end);
  time_time e := page_clock e;
  date_today e := "2025-01-15";
  datetime_now e := "2025-01-15T09:00:00";
|}.

(** *** A site on which everything goes through

    Every lookup finds the element [0], every element is displayed and
    enabled, every action succeeds, the session is valid and each search
    reports three jobs. *)

Inductive Smooth := smooth.

Definition the_job : job :=
  {| Env.title := Some "Warehouse Associate"; Env.location := Some "Toronto, ON";
     Env.schedule := None; Env.pay_rate := None |}.

#[global] Instance smooth_env : Environment Smooth := {|
  answer A p e :=
    (e, match p in prim T return exn + T with
        | SbEnter | SbExit | SbOpen _ | Screenshot | NewMainMonitor
        | InitializeComponents | AppendLine _ | OsSystem => inr tt
        | Click _ | ExecuteScript _ _ | ActionChainsClick _ => inr tt
        | SbFindElement _ | WaitUntil _ _ | FindChild _ _ => inr 0%nat
        | FindElements _ _ => inr [0%nat]
        | IsDisplayed _ | IsEnabled _ | ValidateSession | HandleShiftDropdown => inr true
        | Text _ => inr "Warehouse Associate"
        | GetAttribute _ _ => inr None
        | CurrentUrl => inr "https://hiring.amazon.com/app#/jobDetail"
        | HttpPost _ => inr {| status_code := 204; retry_after := None |}
        | ExtractJobs => inr [the_job; the_job; the_job]
        end);
  elapse d e := e;
  time_time e := 1736931600;
  date_today e := "2025-01-15";
  datetime_now e := "2025-01-15T09:00:00";
|}.

(** *** A site out of reach at first

    No browser session can be opened the first ten times one is asked for;
    from then on the site is the one on which everything goes through.  The
    state counts the sessions asked for. *)

Inductive Flaky := flaky (asked : nat).

#[global] Instance flaky_env : Environment Flaky := {|
  answer A p e :=
    let 'flaky asked := e in
    match p in prim T return Flaky * (exn + T) with
    | SbEnter =>
        (flaky (S asked),
         if (asked <? 10)%nat then inl WebDriverException else inr tt)
    | p' => (e, (answer p' smooth).2)
    end;
  elapse d e := e;
  time_time e := 1736931600;
  date_today e := "2025-01-15";
  datetime_now e := "2025-01-15T09:00:00";
|}.

(** *** A site whose browser does not close

    Everything goes through as on the site above, but leaving the browser
    session raises. *)

Inductive Sticky := sticky.

#[global] Instance sticky_env : Environment Sticky := {|
  answer A p e :=
    (e, match p in prim T return exn + T with
        | SbExit => inl WebDriverException
        | p' => (answer p' smooth).2
        end);
  elapse d e := e;
  time_time e := 1736931600;
  date_today e := "2025-01-15";
  datetime_now e := "2025-01-15T09:00:00";
|}.

(** *** A page whose card carries the attributes [attrs] *)

Inductive Tagged (attrs : list (string * string)) := tagged.

#[global] Instance tagged_env attrs : Environment (Tagged attrs) := {|
  answer A p e :=
    (e, match p in prim T return exn + T with
        | GetAttribute _ name => inr ((list_to_map attrs : gmap string string) !! name)
        | p' => page_answer None p'
        end);
  elapse d e := e;
  time_time e := 1736931600;
  date_today e := "2025-01-15";
  datetime_now e := "2025-01-15T09:00:00";
|}.

Definition start {E} (e : E) : Sys E := {| env := e; events := [] |}.

(** A [ShiftBooking] in front of the page with the tagged card. *)
Definition at_tagged (attrs : list (string * string))
    : ShiftBooking.World (E := Tagged attrs) :=
  {| ShiftBooking.sys := {| env := tagged attrs; events := [] |};
     ShiftBooking.state :=
       {| ShiftBookingState.self :=
            {| ShiftBookingState.state_file := "booking_state.json";
               ShiftBookingState.booked_today := ∅;
               ShiftBookingState.daily_count := JNum 0;
               ShiftBookingState.last_reset_date := "2025-01-15" |};
          ShiftBookingState.disk := {| files := ∅; faults := λ _, NoFault |} |};
     ShiftBooking.fast_booking_mode := true |}.

(** A [ShiftBooking] in front of the page at the time [now], with an empty
    ledger and no stored file. *)
Definition at_page (now : Z) (native : option string) (f : fault)
    : ShiftBooking.World (E := Page native) :=
  {| ShiftBooking.sys := start (page native now);
     ShiftBooking.state := blank "booking_state.json" "2025-01-15" f;
     ShiftBooking.fast_booking_mode := true |}.

(** The slot that discovery makes of the card of the page. *)
Definition the_slot (id : string) : ShiftBooking.ShiftSlot :=
  {| ShiftBooking.job_id := id;
     ShiftBooking.title := "Warehouse Associate";
     ShiftBooking.location := "Toronto, ON";
     ShiftBooking.schedule := "Schedule TBD";
     ShiftBooking.card_index := 0;
     ShiftBooking.pay_rate := None;
     ShiftBooking.discovered_at := Some "2025-01-15T09:00:00" |}.

(** The process started anew in front of the page: the ledger is built
    from what the disk holds. *)
Definition restarted {native} (now : Z) (d : Disk)
    : outcome (ShiftBooking.World (E := Page native)) :=
  (ShiftBooking.__init__ "booking_state.json" (start (page native now)) d).2.

(** A booking service without a notifier. *)
Definition service_on {E} (e : E) : BulletproofBookingService.Service (E := E) :=
  {| BulletproofBookingService.sys := start e;
     BulletproofBookingService.notifier := None;
     BulletproofBookingService.booking_success_count := 0;
     BulletproofBookingService.booking_failure_count := 0 |}.

(** A monitor about to enter its loop, without a notifier. *)
Definition monitor_on {E} (e : E) (c : BulletproofMonitor.Config)
    : BulletproofMonitor.Monitor (E := E) :=
  {| BulletproofMonitor.sys := start e;
     BulletproofMonitor.config := c;
     BulletproofMonitor.running := true;
     BulletproofMonitor.cycle_count := 0;
     BulletproofMonitor.total_bookings := 0;
     BulletproofMonitor.notifier := None;
     BulletproofMonitor.booking_service := None;
     BulletproofMonitor.main_monitor := None |}.

Definition limits (per_cycle daily : Z) : BulletproofMonitor.Config :=
  {| BulletproofMonitor.check_interval := 45;
     BulletproofMonitor.per_cycle_limit := per_cycle;
     BulletproofMonitor.daily_limit := daily |}.

(** The browser sessions opened so far. *)
Definition browsers (evs : list event) : nat :=
  length (omap (λ ev, match ev with Called SbEnter => Some tt | _ => None end) evs).

End Scenario.

(** * Properties *)

(** Unfolds the monadic plumbing so that a computation applied to a state
    reduces by [simpl]. *)
Ltac py_unfold :=
  unfold mbind, mret, M_bind, M_ret, Py.bind, Py.ret, Py.raise,
    Py.get, Py.gets, Py.modify, Py.try_except, Py.zoom, Py.Exception in *.

(** ** Reasoning about computations *)

Section Logic.
Context {S : Type}.

Lemma returns_ret {A} (a : A) : returns (mret a : M S A).
Proof. intros s. by exists s, a. Qed.

Lemma returns_bind {A B} (m : M S A) (k : A → M S B) :
  returns m → (∀ a, returns (k a)) → returns (m ≫= k).
Proof.
  intros Hm Hk s. destruct (Hm s) as (s1 & a & E1).
  destruct (Hk a s1) as (s2 & b & E2). exists s2, b.
  py_unfold. by rewrite E1.
Qed.

(** A handler for [Exception] that returns makes the whole statement return. *)
Lemma returns_try {A} (body : M S A) (handler : exn → M S A) :
  (∀ e, returns (handler e)) → returns (try_except body Exception handler).
Proof.
  intros Hh s. py_unfold. destruct (body s) as [s1 [a|e]]; [by exists s1, a|].
  apply Hh.
Qed.



Lemma returns_for_return {A B} (xs : list A) (body : A → M S (option B)) :
  (∀ x, returns (body x)) → returns (for_return xs body).
Proof.
  intros Hb. induction xs as [|x xs IH]; simpl; [apply returns_ret|].
  apply returns_bind; [apply Hb|]. intros [v|]; [apply returns_ret|apply IH].
Qed.

Lemma returns_for_each {A} (xs : list A) (body : A → M S unit) :
  (∀ x, returns (body x)) → returns (for_each xs body).
Proof.
  intros Hb. induction xs as [|x xs IH]; simpl; [apply returns_ret|].
  apply returns_bind; [apply Hb|]. intros _. apply IH.
Qed.

Lemma returns_zoom {T A} (proj : S → T) (upd : T → S → S) (m : M T A) :
  (∀ t, ∃ t' a, m t = (t', Ret a)) → returns (zoom proj upd m).
Proof.
  intros Hm s. destruct (Hm (proj s)) as (t' & a & E).
  exists (upd t' s), a. unfold zoom. by rewrite E.
Qed.

Lemma returns_modify (f : S → S) : returns (modify f).
Proof. intros s. by exists (f s), tt. Qed.

Lemma returns_gets {A} (f : S → A) : returns (gets f).
Proof. intros s. by exists s, (f s). Qed.


Lemma bind_raise_eq {A B} (m : M S A) (k : A → M S B) s s' e :
  m s = (s', Raise e) → (m ≫= k) s = (s', Raise e).
Proof. intros E. py_unfold. by rewrite E. Qed.

(** *** Postconditions *)

Lemma post_ret {A} (a : A) (s : S) (Q : S → outcome A → Prop) :
  Q s (Ret a) → post (mret a) s Q.
Proof. done. Qed.

Lemma post_bind {A B} (m : M S A) (k : A → M S B) s (Q : S → outcome B → Prop) :
  (∀ s1 a, m s = (s1, Ret a) → post (k a) s1 Q) →
  (∀ s1 e, m s = (s1, Raise e) → Q s1 (Raise e)) →
  post (m ≫= k) s Q.
Proof.
  intros Hr He. unfold post. py_unfold.
  destruct (m s) as [s1 [a|e]] eqn:E; [by apply Hr|by apply He].
Qed.

(** Sequencing through an assertion on the first part. *)
Lemma post_seq {A B} (m : M S A) (k : A → M S B) s
    (P : S → outcome A → Prop) (Q : S → outcome B → Prop) :
  post m s P →
  (∀ s1 a, P s1 (Ret a) → post (k a) s1 Q) →
  (∀ s1 e, P s1 (Raise e) → Q s1 (Raise e)) →
  post (m ≫= k) s Q.
Proof.
  intros Hm Hr He. unfold post in Hm. apply post_bind.
  - intros s1 a E. rewrite E in Hm. by apply Hr.
  - intros s1 e E. rewrite E in Hm. by apply He.
Qed.

(** The same, for a first part of which nothing need be known. *)
Lemma post_skip {A B} (m : M S A) (k : A → M S B) s (Q : S → outcome B → Prop) :
  (∀ s1 a, post (k a) s1 Q) → (∀ s1 e, Q s1 (Raise e)) → post (m ≫= k) s Q.
Proof. intros Hr He. apply post_bind; auto. Qed.

Lemma post_try {A} (body : M S A) clause handler s (Q : S → outcome A → Prop) :
  post body s (λ s1 r, match r with
                       | Ret a => Q s1 (Ret a)
                       | Raise e =>
                           if clause e : bool then post (handler e) s1 Q
                           else Q s1 (Raise e)
                       end) →
  post (try_except body clause handler) s Q.
Proof.
  unfold post. py_unfold. destruct (body s) as [s1 [a|e]]; simpl; [done|].
  by destruct (clause e).
Qed.

(** The same, for a first part that is known to return. *)
Lemma post_after {A B} (m : M S A) (k : A → M S B) s (Q : S → outcome B → Prop) :
  returns m → (∀ s1 a, post (k a) s1 Q) → post (m ≫= k) s Q.
Proof.
  intros Hm Hk. apply post_bind; [auto|].
  intros s1 e E. destruct (Hm s) as (? & ? & E'). congruence.
Qed.

Lemma post_weaken {A} (m : M S A) s (P Q : S → outcome A → Prop) :
  post m s P → (∀ s1 r, P s1 r → Q s1 r) → post m s Q.
Proof. unfold post. auto. Qed.

Lemma post_eq {A} (m : M S A) s (Q : S → outcome A → Prop) :
  post m s Q ↔ ∀ s1 r, m s = (s1, r) → Q s1 r.
Proof.
  unfold post. split.
  - intros HQ s1 r E. by rewrite E in HQ.
  - intros HQ. apply HQ. by destruct (m s).
Qed.

(** Loops: [Q] holds of the run when it holds of the round that ends it and
    of the state in which the list is exhausted. *)
Lemma post_for_first {A} (xs : list A) (body : A → M S bool)
    (Q : S → outcome bool → Prop) :
  (∀ x s, post (body x) s (λ s1 r, match r with
                                   | Ret false => True
                                   | _ => Q s1 r
                                   end)) →
  (∀ s, Q s (Ret false)) →
  ∀ s, post (for_first xs body) s Q.
Proof.
  intros Hb Hend. induction xs as [|x xs IH]; intros s; simpl; [apply Hend|].
  apply post_bind.
  - intros s1 [|] E; [|apply IH].
    specialize (Hb x s). unfold post in Hb. by rewrite E in Hb.
  - intros s1 e E. specialize (Hb x s). unfold post in Hb. by rewrite E in Hb.
Qed.

Lemma post_for_return {A B} (xs : list A) (body : A → M S (option B))
    (Q : S → outcome (option B) → Prop) :
  (∀ x s, post (body x) s (λ s1 r, match r with
                                   | Ret None => True
                                   | _ => Q s1 r
                                   end)) →
  (∀ s, Q s (Ret None)) →
  ∀ s, post (for_return xs body) s Q.
Proof.
  intros Hb Hend. induction xs as [|x xs IH]; intros s; simpl; [apply Hend|].
  apply post_bind.
  - intros s1 [v|] E; [|apply IH].
    specialize (Hb x s). unfold post in Hb. by rewrite E in Hb.
  - intros s1 e E. specialize (Hb x s). unfold post in Hb. by rewrite E in Hb.
Qed.

(** *** Parts of the state that a computation leaves alone *)

Lemma keeps_post {T A} (proj : S → T) (m : M S A) s :
  keeps proj m → post m s (λ s1 _, proj s1 = proj s).
Proof. intros Hk. apply Hk. Qed.

Lemma keeps_ret {T A} (proj : S → T) (a : A) : keeps proj (mret a : M S A).
Proof. by intros s. Qed.

Lemma keeps_raise {T A} (proj : S → T) (e : exn) : keeps proj (raise e : M S A).
Proof. by intros s. Qed.

Lemma keeps_gets {T A} (proj : S → T) (f : S → A) : keeps proj (gets f).
Proof. by intros s. Qed.

Lemma keeps_bind {T A B} (proj : S → T) (m : M S A) (k : A → M S B) :
  keeps proj m → (∀ a, keeps proj (k a)) → keeps proj (m ≫= k).
Proof.
  intros Hm Hk s. py_unfold. specialize (Hm s).
  destruct (m s) as [s1 [a|e]]; simpl in *; [|done].
  by rewrite Hk.
Qed.

Lemma keeps_try {T A} (proj : S → T) (body : M S A) clause handler :
  keeps proj body → (∀ e, keeps proj (handler e)) →
  keeps proj (try_except body clause handler).
Proof.
  intros Hb Hh s. py_unfold. specialize (Hb s).
  destruct (body s) as [s1 [a|e]]; simpl in *; [done|].
  destruct (clause e); [|done]. by rewrite Hh.
Qed.

Lemma keeps_for_first {T A} (proj : S → T) (xs : list A) (body : A → M S bool) :
  (∀ x, keeps proj (body x)) → keeps proj (for_first xs body).
Proof.
  intros Hb. induction xs as [|x xs IH]; simpl; [apply keeps_ret|].
  apply keeps_bind; [apply Hb|]. intros [|]; [apply keeps_ret|apply IH].
Qed.

Lemma keeps_for_return {T A B} (proj : S → T) (xs : list A)
    (body : A → M S (option B)) :
  (∀ x, keeps proj (body x)) → keeps proj (for_return xs body).
Proof.
  intros Hb. induction xs as [|x xs IH]; simpl; [apply keeps_ret|].
  apply keeps_bind; [apply Hb|]. intros [v|]; [apply keeps_ret|apply IH].
Qed.

Lemma keeps_for_each {T A} (proj : S → T) (xs : list A) (body : A → M S unit) :
  (∀ x, keeps proj (body x)) → keeps proj (for_each xs body).
Proof.
  intros Hb. induction xs as [|x xs IH]; simpl; [apply keeps_ret|].
  apply keeps_bind; [apply Hb|]. intros _. apply IH.
Qed.

(** *** Relations between the state before and the state after *)

Section Moves.
Context (R : S → S → Prop) `{!Reflexive R} `{!Transitive R}.











End Moves.

End Logic.

(** Solves [keeps proj m] for a computation built from the combinators,
    given a tactic for its leaves. *)
Ltac keeps_with leaf :=
  repeat first
    [ apply keeps_ret | apply keeps_raise | apply keeps_gets | leaf
    | apply keeps_bind; [|intros ?]
    | apply keeps_try; [|intros ?]
    | apply keeps_for_first; intros ?
    | apply keeps_for_return; intros ?
    | apply keeps_for_each; intros ?
    | match goal with
      | |- keeps _ (match ?x with _ => _ end) => destruct x
      end ].

Create HintDb py.
#[local] Hint Resolve returns_ret returns_modify returns_gets : py.

(** ** The action executor *)


(** [keeps proj m] for a computation built from the combinators, read off
    its syntax; [leaf] closes what is left. *)
Ltac keeps_by leaf :=
  repeat lazymatch goal with
  | |- keeps _ (mret _) => apply keeps_ret
  | |- keeps _ (raise _) => apply keeps_raise
  | |- keeps _ (gets _) => apply keeps_gets
  | |- keeps _ (mbind _ _) => apply keeps_bind; [|intros ?]
  | |- keeps _ (try_except _ _ _) => apply keeps_try; [|intros ?]
  | |- keeps _ (for_first _ _) => apply keeps_for_first; intros ?
  | |- keeps _ (for_return _ _) => apply keeps_for_return; intros ?
  | |- keeps _ (for_each _ _) => apply keeps_for_each; intros ?
  | |- keeps _ (match ?x with _ => _ end) => destruct x
  | |- _ => leaf
  end.

(** Sequencing after a part that leaves [proj] alone. *)
Lemma post_kept {S T A B} (proj : S → T) (m : M S A) (k : A → M S B) (s : S) (t : T)
    (Q : S → outcome B → Prop) :
  keeps proj m → proj s = t →
  (∀ s1 a, proj s1 = t → post (k a) s1 Q) →
  (∀ s1 e, proj s1 = t → Q s1 (Raise e)) →
  post (m ≫= k) s Q.
Proof.
  intros Hk Hs Hr He. specialize (Hk s). apply post_bind.
  - intros s1 a Hm. apply Hr. rewrite Hm in Hk. cbn in Hk. congruence.
  - intros s1 e Hm. apply He. rewrite Hm in Hk. cbn in Hk. congruence.
Qed.

Section Executor.
Import selenium_helpers.
Context {E : Type} `{Environment E}.

Lemma returns_sleep (d : duration) : returns (sleep (E := E) d).
Proof. intros s. eexists _, tt. reflexivity. Qed.













(** *** The retry of [ShiftBooking] *)




End Executor.

Section ExecutorScenarios.
Import Scenario.



End ExecutorScenarios.

(** ** The booking ledger *)

Section Ledger.
Import ShiftBookingState Scenario.

Lemma run_ops_save (s : t) (d : Disk) :
  run_ops (save_ops s) d =
  match faults d (state_file s) with
  | NoFault =>
      (with_file (state_file s) (Holding (Doc (record_of s)))
         (with_file (state_file s) (Holding Truncated) d), Ret tt)
  | OpenFails => (d, Raise OSError)
  | DumpFails => (with_file (state_file s) (Holding Truncated) d, Raise OSError)
  end.
Proof.
  unfold save_ops; simpl; py_unfold; simpl.
  destruct (faults d (state_file s)) eqn:E; simpl; rewrite ?E; reflexivity.
Qed.

Lemma save_state_spec (w : World) :
  _save_state w =
  ({| self := self w;
      disk := match faults (disk w) (state_file (self w)) with
              | NoFault =>
                  with_file (state_file (self w)) (Holding (Doc (record_of (self w))))
                    (with_file (state_file (self w)) (Holding Truncated) (disk w))
              | OpenFails => disk w
              | DumpFails => with_file (state_file (self w)) (Holding Truncated) (disk w)
              end |}, Ret tt).
Proof.
  unfold _save_state, on_disk. py_unfold.
  rewrite run_ops_save.
  destruct (faults (disk w) (state_file (self w))); reflexivity.
Qed.

Lemma save_state_self (w : World) : self (_save_state w).1 = self w.
Proof. rewrite save_state_spec. reflexivity. Qed.

(** The update of the object, for a counter that is an integer and for one
    that is not. *)
Lemma add_and_count_spec (job_id : string) (w : World) :
  add_and_count job_id w =
  let added := {[KStr job_id]} ∪ booked_today (self w) in
  match int_of (daily_count (self w)) with
  | Some n =>
      ({| self := {| state_file := state_file (self w);
                     booked_today := added;
                     daily_count := JNum (n + 1);
                     last_reset_date := last_reset_date (self w) |};
          disk := disk w |}, Ret tt)
  | None =>
      ({| self := {| state_file := state_file (self w);
                     booked_today := added;
                     daily_count := daily_count (self w);
                     last_reset_date := last_reset_date (self w) |};
          disk := disk w |}, Raise TypeError)
  end.
Proof.
  unfold add_and_count, set_self. py_unfold. cbn.
  by destruct (int_of (daily_count (self w))).
Qed.

Lemma mark_as_booked_spec (job_id : string) (w : World) (n : Z) :
  int_of (daily_count (self w)) = Some n →
  mark_as_booked job_id w = _save_state (add_and_count job_id w).1.
Proof.
  intros Hn. unfold mark_as_booked. py_unfold.
  rewrite add_and_count_spec, Hn. reflexivity.
Qed.

Lemma with_file_other (p q : string) (f : file) (d : Disk) :
  q ≠ p → files (with_file p f d) !! q = files d !! q.
Proof. intros Hne. unfold with_file; simpl. by rewrite lookup_insert_ne. Qed.

Lemma with_file_same (p : string) (f : file) (d : Disk) :
  files (with_file p f d) !! p = Some f.
Proof. unfold with_file; simpl. by rewrite lookup_insert_eq. Qed.

Lemma size_add_fresh (x : key) (X : gset key) :
  x ∉ X → size ({[x]} ∪ X) = S (size X).
Proof.
  intros Hx. rewrite size_union.
  - by rewrite size_singleton.
  - intros y ->%elem_of_singleton. exact Hx.
Qed.

Lemma add_again (x : key) (X : gset key) : {[x]} ∪ ({[x]} ∪ X) = {[x]} ∪ X.
Proof. by rewrite (assoc_L (∪)), union_idemp_L. Qed.

Lemma elem_of_added (x : key) (X : gset key) : x ∈ {[x]} ∪ X.
Proof. apply elem_of_union_l. by apply elem_of_singleton. Qed.

(** What a booking leaves behind, in memory and on the disk, when the
    counter is an integer. *)
Lemma mark_as_booked_effect (job_id : string) (w : World) (n : Z) :
  int_of (daily_count (self w)) = Some n →
  let w' := (mark_as_booked job_id w).1 in
  (mark_as_booked job_id w).2 = Ret tt ∧
  booked_today (self w') = {[KStr job_id]} ∪ booked_today (self w) ∧
  daily_count (self w') = JNum (n + 1) ∧
  state_file (self w') = state_file (self w) ∧
  last_reset_date (self w') = last_reset_date (self w) ∧
  faults (disk w') = faults (disk w) ∧
  (∀ q, q ≠ state_file (self w) → files (disk w') !! q = files (disk w) !! q) ∧
  match faults (disk w) (state_file (self w)) with
  | NoFault =>
      files (disk w') !! state_file (self w)
      = Some (Holding (Doc (record_of (self w'))))
  | OpenFails => disk w' = disk w
  | DumpFails =>
      files (disk w') !! state_file (self w) = Some (Holding Truncated)
  end.
Proof.
  intros Hn. cbv zeta.
  rewrite (mark_as_booked_spec _ _ n Hn), save_state_spec, add_and_count_spec, Hn.
  cbn [fst snd self disk state_file booked_today daily_count last_reset_date].
  repeat split; try reflexivity.
  - destruct (faults _ _); reflexivity.
  - intros q Hq. destruct (faults _ _); rewrite ?with_file_other by done; done.
  - destruct (faults _ _); try reflexivity; apply with_file_same.
Qed.

(** C1, as stated, fails: two calls with one id count the booking twice,
    although the set holds it once. *)
Lemma mark_as_booked_twice_counts_twice :
  let w1 := (mark_as_booked "JOB-1" (blank "booking_state.json" "2025-01-15" NoFault)).1 in
  let w2 := (mark_as_booked "JOB-1" w1).1 in
  daily_count (self w1) = JNum 1 ∧ daily_count (self w2) = JNum 2 ∧
  size (booked_today (self w2)) = 1%nat ∧
  daily_count (self w2) ≠ JNum (Z.of_nat (size (booked_today (self w2)))).
Proof. vm_compute. repeat split; congruence. Qed.

(** C1 (amended): on a ledger whose counter is an integer, within one day,
    two calls of [mark_as_booked] with one id both return normally and leave
    the id booked after either call; the booked set after the second call is
    the one after the first, but [daily_count] is incremented by each call,
    so by two for the pair.  The invariant [daily_count = |booked_today|] is
    kept by a call whose id was not booked before, and is off by one after
    the repeated call. *)
Theorem mark_as_booked_twice (w : World) (job_id : string) (n : Z) :
  int_of (daily_count (self w)) = Some n →
  let (w1, r1) := mark_as_booked job_id w in
  let (w2, r2) := mark_as_booked job_id w1 in
  r1 = Ret tt ∧ r2 = Ret tt ∧
  (is_already_booked job_id w1).2 = Ret true ∧
  (is_already_booked job_id w2).2 = Ret true ∧
  booked_today (self w2) = booked_today (self w1) ∧
  daily_count (self w1) = JNum (n + 1) ∧
  daily_count (self w2) = JNum (n + 2) ∧
  (KStr job_id ∉ booked_today (self w) →
   n = Z.of_nat (size (booked_today (self w))) →
   n + 1 = Z.of_nat (size (booked_today (self w1))) ∧
   n + 2 = Z.of_nat (size (booked_today (self w2))) + 1).
Proof.
  intros Hn.
  destruct (mark_as_booked_effect job_id w n Hn) as (Hr1 & Hb1 & Hc1 & _).
  destruct (mark_as_booked job_id w) as [w1 r1]. cbn [fst snd] in Hr1, Hb1, Hc1.
  assert (Hn1 : int_of (daily_count (self w1)) = Some (n + 1)) by by rewrite Hc1.
  destruct (mark_as_booked_effect job_id w1 (n + 1) Hn1) as (Hr2 & Hb2 & Hc2 & _).
  destruct (mark_as_booked job_id w1) as [w2 r2]. cbn [fst snd] in Hr2, Hb2, Hc2.
  assert (Hsame : booked_today (self w2) = booked_today (self w1)).
  { by rewrite Hb2, Hb1, add_again. }
  split; [done|]. split; [done|]. unfold is_already_booked, gets. cbn [snd].
  split; [|split; [|split; [done|split; [done|split]]]].
  - f_equal. apply bool_decide_eq_true. rewrite Hb1. apply elem_of_added.
  - f_equal. apply bool_decide_eq_true. rewrite Hb2. apply elem_of_added.
  - rewrite Hc2. f_equal. lia.
  - intros Hfresh Hsize. rewrite Hsame, Hb1, size_add_fresh by done. lia.
Qed.

Lemma mark_as_booked_twice_witness :
  let w := blank "booking_state.json" "2025-01-15" NoFault in
  let w1 := (mark_as_booked "JOB-1" w).1 in
  let w2 := (mark_as_booked "JOB-1" w1).1 in
  int_of (daily_count (self w)) = Some 0 ∧
  (KStr "JOB-1" ∉ booked_today (self w)) ∧
  0 = Z.of_nat (size (booked_today (self w))) ∧
  daily_count (self w2) = JNum 2 ∧
  0 + 1 = Z.of_nat (size (booked_today (self w1))) ∧
  0 + 2 = Z.of_nat (size (booked_today (self w2))) + 1.
Proof.
  pose proof (mark_as_booked_twice
                (blank "booking_state.json" "2025-01-15" NoFault) "JOB-1" 0 eq_refl) as H.
  cbv zeta.
  destruct (mark_as_booked "JOB-1" _) as [w1 r1]; cbn [fst].
  destruct (mark_as_booked "JOB-1" w1) as [w2 r2]; cbn [fst].
  destruct H as (_ & _ & _ & _ & _ & _ & Hc & H).
  assert (Hfresh : KStr "JOB-1" ∉
            booked_today (self (blank "booking_state.json" "2025-01-15" NoFault))).
  { cbn. apply not_elem_of_empty. }
  split; [reflexivity|]. split; [exact Hfresh|]. split; [reflexivity|].
  split; [exact Hc|]. exact (H Hfresh eq_refl).
Defined.

(** *** Persistence *)

Lemma killed_in_mark_spec (job_id : string) (k : nat) (w : World) :
  let s' := self (add_and_count job_id w).1 in
  killed_in_mark job_id k w =
  match k with
  | O => disk w
  | S O =>
      match faults (disk w) (state_file (self w)) with
      | OpenFails => disk w
      | _ => with_file (state_file (self w)) (Holding Truncated) (disk w)
      end
  | S (S _) => (run_ops (save_ops s') (disk w)).1
  end.
Proof.
  unfold killed_in_mark, killed_in_save. rewrite add_and_count_spec.
  destruct (int_of (daily_count (self w))); cbn [fst self disk].
  all: destruct k as [|[|k]]; [reflexivity| |].
  all: try (unfold save_ops; simpl; py_unfold;
            destruct (faults (disk w) (state_file (self w))); reflexivity).
  all: unfold save_ops; destruct k; reflexivity.
Qed.

(** C6, as stated, fails: the save empties the stored file before it writes.
    A process killed between the two steps leaves a truncated file, and so
    does a write that fails (a full disk), after which [mark_as_booked] still
    returns normally. *)
Lemma save_truncates_in_place :
  files (killed_in_mark "JOB-1" 1 (stored NoFault)) !! "booking_state.json"
    = Some (Holding Truncated) ∧
  (mark_as_booked "JOB-1" (stored DumpFails)).2 = Ret tt ∧
  files (disk (mark_as_booked "JOB-1" (stored DumpFails)).1) !! "booking_state.json"
    = Some (Holding Truncated).
Proof. vm_compute. repeat split. Qed.

(** C6 (amended): on a ledger whose counter is an integer, [mark_as_booked]
    returns normally and rewrites the ledger file in place.  It opens the
    file itself for writing, which empties it, and then dumps the record
    into it; no other path is created or written, before or after a kill at
    any point, so there is no temporary file and no replace.  When neither
    file operation fails the file holds the updated record when the call
    returns; a process killed after the open and before the dump has
    completed leaves the file truncated, and so does a write that fails;
    an open that fails leaves the file as it was. *)
Theorem mark_as_booked_rewrites_in_place (w : World) (job_id : string) (n : Z) :
  int_of (daily_count (self w)) = Some n →
  let p := state_file (self w) in
  let w' := (mark_as_booked job_id w).1 in
  (mark_as_booked job_id w).2 = Ret tt ∧
  (∀ k q, q ≠ p → files (killed_in_mark job_id k w) !! q = files (disk w) !! q) ∧
  (∀ q, q ≠ p → files (disk w') !! q = files (disk w) !! q) ∧
  (faults (disk w) p = NoFault →
   files (disk w') !! p = Some (Holding (Doc (record_of (self w')))) ∧
   files (killed_in_mark job_id 0 w) !! p = files (disk w) !! p ∧
   files (killed_in_mark job_id 1 w) !! p = Some (Holding Truncated) ∧
   ∀ k, (2 ≤ k)%nat →
        files (killed_in_mark job_id k w) !! p
        = Some (Holding (Doc (record_of (self w'))))) ∧
  (faults (disk w) p = DumpFails →
   files (disk w') !! p = Some (Holding Truncated)) ∧
  (faults (disk w) p = OpenFails → disk w' = disk w).
Proof.
  intros Hn. cbv zeta.
  destruct (mark_as_booked_effect job_id w n Hn)
    as (Hr & _ & _ & _ & _ & _ & Hother & Hfile).
  split; [exact Hr|]. split; [|split; [exact Hother|split; [|split]]].
  - intros k q Hq. rewrite killed_in_mark_spec. cbv zeta.
    destruct k as [|[|k]]; [reflexivity| |].
    + destruct (faults _ _); rewrite ?with_file_other by done; done.
    + rewrite run_ops_save, add_and_count_spec, Hn. cbn [fst self state_file].
      destruct (faults _ _); cbn [fst]; rewrite ?with_file_other by done; done.
  - intros Hf. rewrite Hf in Hfile. split; [exact Hfile|].
    split; [by rewrite killed_in_mark_spec|].
    split; [rewrite killed_in_mark_spec; cbv zeta; rewrite Hf; apply with_file_same|].
    intros k Hk. rewrite killed_in_mark_spec. cbv zeta.
    destruct k as [|[|k]]; [lia|lia|].
    rewrite run_ops_save, (mark_as_booked_spec _ _ n Hn), save_state_spec.
    rewrite add_and_count_spec, Hn. cbn [fst self disk state_file]. rewrite Hf.
    cbn [fst self]. apply with_file_same.
  - intros Hf. by rewrite Hf in Hfile.
  - intros Hf. by rewrite Hf in Hfile.
Qed.

Lemma mark_as_booked_rewrites_in_place_witness :
  int_of (daily_count (self (stored NoFault))) = Some 1 ∧
  faults (disk (stored NoFault)) "booking_state.json" = NoFault ∧
  faults (disk (stored DumpFails)) "booking_state.json" = DumpFails ∧
  faults (disk (stored OpenFails)) "booking_state.json" = OpenFails ∧
  files (disk (mark_as_booked "JOB-1" (stored NoFault)).1) !! "booking_state.json"
    = Some (Holding (Doc (record_of (self (mark_as_booked "JOB-1" (stored NoFault)).1)))) ∧
  files (killed_in_mark "JOB-1" 1 (stored NoFault)) !! "booking_state.json"
    = Some (Holding Truncated) ∧
  files (disk (mark_as_booked "JOB-1" (stored DumpFails)).1) !! "booking_state.json"
    = Some (Holding Truncated) ∧
  disk (mark_as_booked "JOB-1" (stored OpenFails)).1 = disk (stored OpenFails).
Proof.
  destruct (mark_as_booked_rewrites_in_place (stored NoFault) "JOB-1" 1 eq_refl)
    as (_ & _ & _ & H & _ & _).
  destruct (H eq_refl) as (H1 & _ & H2 & _).
  destruct (mark_as_booked_rewrites_in_place (stored DumpFails) "JOB-1" 1 eq_refl)
    as (_ & _ & _ & _ & Hd & _).
  destruct (mark_as_booked_rewrites_in_place (stored OpenFails) "JOB-1" 1 eq_refl)
    as (_ & _ & _ & _ & _ & Ho).
  split; [reflexivity|]. split; [reflexivity|]. split; [reflexivity|].
  split; [reflexivity|]. split; [exact H1|]. split; [exact H2|].
  split; [exact (Hd eq_refl)|exact (Ho eq_refl)].
Defined.

(** C10, as stated, fails.  A ledger file of the day whose counter is the
    text ["1"] is loaded as it is; the first [mark_as_booked] then raises
    [TypeError] at the increment, after the id has entered the set in
    memory and before anything is saved. *)
Lemma mark_as_booked_raises_on_text_counter :
  ∃ o, __init__ "booking_state.json" "2025-01-15" text_counter = (text_counter, Ret o) ∧
       daily_count o = JStr "1" ∧
       let w := {| self := o; disk := text_counter |} in
       (mark_as_booked "JOB-1" w).2 = Raise TypeError ∧
       KStr "JOB-1" ∈ booked_today (self (mark_as_booked "JOB-1" w).1) ∧
       disk (mark_as_booked "JOB-1" w).1 = text_counter.
Proof.
  eexists. split; [by vm_compute|]. split; [reflexivity|]. cbv zeta.
  split; [by vm_compute|]. split; [|by vm_compute].
  unfold mark_as_booked. py_unfold. rewrite add_and_count_spec. cbn.
  apply elem_of_added.
Qed.

(** C10 (amended): on a ledger whose counter is an integer,
    [mark_as_booked] returns normally whatever the file system does.  The
    set and the counter are updated in memory in every case; when the save
    fails the exception is swallowed, the caller sees an ordinary return, and
    the stored file lags: it is untouched when the open fails (and, the
    fault standing, stays so), truncated when the write fails. *)
Theorem mark_as_booked_never_raises (w : World) (job_id : string) (n : Z) :
  int_of (daily_count (self w)) = Some n →
  let (w', r) := mark_as_booked job_id w in
  r = Ret tt ∧
  booked_today (self w') = {[KStr job_id]} ∪ booked_today (self w) ∧
  daily_count (self w') = JNum (n + 1) ∧
  state_file (self w') = state_file (self w) ∧
  faults (disk w') = faults (disk w) ∧
  match faults (disk w) (state_file (self w)) with
  | NoFault =>
      files (disk w') !! state_file (self w)
      = Some (Holding (Doc (record_of (self w'))))
  | OpenFails => disk w' = disk w
  | DumpFails =>
      files (disk w') !! state_file (self w) = Some (Holding Truncated)
  end.
Proof.
  intros Hn.
  destruct (mark_as_booked_effect job_id w n Hn) as (Hr & Hb & Hc & Hp & _ & Hf & _ & Hd).
  by destruct (mark_as_booked job_id w) as [w' r].
Qed.

Lemma mark_as_booked_never_raises_witness :
  int_of (daily_count (self (stored OpenFails))) = Some 1 ∧
  (mark_as_booked "JOB-1" (stored OpenFails)).2 = Ret tt ∧
  daily_count (self (mark_as_booked "JOB-1" (stored OpenFails)).1) = JNum 2 ∧
  disk (mark_as_booked "JOB-1" (stored OpenFails)).1 = disk (stored OpenFails).
Proof.
  pose proof (mark_as_booked_never_raises (stored OpenFails) "JOB-1" 1 eq_refl) as H.
  destruct (mark_as_booked "JOB-1" (stored OpenFails)) as [w' r].
  destruct H as (Hr & _ & Hc & _ & _ & Hd). cbn [fst snd].
  split; [reflexivity|]. split; [exact Hr|]. split; [exact Hc|exact Hd].
Defined.

(** *** Loading *)

Lemma mapM_key_of (ks : list key) : mapM key_of (key_json <$> ks) = Some ks.
Proof.
  apply mapM_Some. induction ks as [|k ks IH]; constructor; [by destruct k|exact IH].
Qed.

(** A record written by the ledger on the day [today] is read back in full
    by a new process started the same day. *)
Lemma init_reads_back (s : t) (today : string) (d : Disk) :
  files d !! state_file s = Some (Holding (Doc (record_of s))) →
  last_reset_date s = today →
  __init__ (state_file s) today d = (d, Ret s).
Proof.
  intros Hfile Hday. unfold __init__, _load_state, on_disk, path_exists, read_json.
  py_unfold. simpl. rewrite Hfile. simpl. rewrite Hfile. simpl.
  rewrite Hday, String.eqb_refl. simpl.
  rewrite mapM_key_of. simpl.
  rewrite list_to_set_elements_L.
  destruct s; simpl in *; subst; reflexivity.
Qed.

Lemma reset_spec (today : string) (w : World) :
  _reset_daily_state today w =
  _save_state {| self := {| state_file := state_file (self w); booked_today := ∅;
                            daily_count := JNum 0; last_reset_date := today |};
                 disk := disk w |}.
Proof. reflexivity. Qed.

(** What a reset leaves behind: the empty ledger of the day, and on the
    disk the file rewritten when that goes through, every other path as it
    was. *)
Lemma reset_effect (today : string) (w : World) :
  let fresh := {| state_file := state_file (self w); booked_today := ∅;
                  daily_count := JNum 0; last_reset_date := today |} in
  ∃ d', _reset_daily_state today w = ({| self := fresh; disk := d' |}, Ret tt) ∧
        (faults (disk w) (state_file (self w)) = NoFault →
         files d' !! state_file (self w) = Some (Holding (Doc (record_of fresh)))) ∧
        (∀ q, q ≠ state_file (self w) → files d' !! q = files (disk w) !! q).
Proof.
  intros fresh. rewrite reset_spec, save_state_spec. cbn [self disk state_file].
  eexists. split; [reflexivity|]. split.
  - intros ->. apply with_file_same.
  - intros q Hq. destruct (faults _ _); rewrite ?with_file_other by done; done.
Qed.

Lemma is_str_other_day (members : list (string * json)) (today : string) :
  dict_get "last_reset_date" members ≠ Some (JStr today) →
  is_str (default JNull (dict_get "last_reset_date" members)) today = false.
Proof.
  intros Hne. destruct (dict_get _ members) as [[| | |s| |]|]; try done.
  simpl. apply String.eqb_neq. congruence.
Qed.

(** A file that holds a record of another day, or one with no date, makes
    the ledger start empty. *)
Lemma init_resets_other_day (file today : string) (d : Disk)
    (members : list (string * json)) :
  files d !! file = Some (Holding (Doc (JObj members))) →
  dict_get "last_reset_date" members ≠ Some (JStr today) →
  let fresh := {| state_file := file; booked_today := ∅;
                  daily_count := JNum 0; last_reset_date := today |} in
  ∃ d', __init__ file today d = (d', Ret fresh) ∧
        (faults d file = NoFault →
         files d' !! file = Some (Holding (Doc (record_of fresh)))) ∧
        (∀ q, q ≠ file → files d' !! q = files d !! q).
Proof.
  intros Hfile Hday fresh.
  destruct (reset_effect today {| self := fresh; disk := d |}) as (d' & Hr & Hw & Ho).
  exists d'. split; [|split; [exact Hw|exact Ho]].
  unfold __init__, _load_state, on_disk, path_exists, read_json.
  py_unfold. cbn [self disk state_file]. rewrite Hfile.
  rewrite bool_decide_eq_true_2 by eauto. cbn [self disk state_file].
  rewrite Hfile. cbn [py_get]. py_unfold.
  rewrite is_str_other_day by done. cbn [negb].
  fold fresh. rewrite Hr. reflexivity.
Qed.

(** Text that is not JSON is survived: the ledger starts empty for the day
    and the file is rewritten. *)
Lemma init_starts_empty_on_bad_text (file today : string) (d : Disk) (c : content) :
  files d !! file = Some (Holding c) →
  c = Truncated ∨ c = Malformed →
  let fresh := {| state_file := file; booked_today := ∅;
                  daily_count := JNum 0; last_reset_date := today |} in
  ∃ d', __init__ file today d = (d', Ret fresh) ∧
        (faults d file = NoFault →
         files d' !! file = Some (Holding (Doc (record_of fresh)))) ∧
        (∀ q, q ≠ file → files d' !! q = files d !! q).
Proof.
  intros Hfile Hc fresh.
  destruct (reset_effect today {| self := fresh; disk := d |}) as (d' & Hr & Hw & Ho).
  exists d'. split; [|split; [exact Hw|exact Ho]].
  unfold __init__, _load_state, on_disk, path_exists, read_json.
  py_unfold. cbn [self disk state_file]. rewrite Hfile.
  rewrite bool_decide_eq_true_2 by eauto. cbn [self disk state_file].
  rewrite Hfile. fold fresh.
  destruct Hc as [-> | ->]; cbn; fold fresh; rewrite Hr; reflexivity.
Qed.

(** C5 fails on the code: [_load_state] intercepts [JSONDecodeError] and
    [KeyError] only.  A stored file that holds a JSON document which is not
    an object, a file that cannot be read or decoded, and an object whose
    [booked_today] is not iterable all make the constructor raise. *)
Theorem load_raises_on_unexpected_content :
  (__init__ "booking_state.json" "2025-01-15"
     (holding "booking_state.json" (Holding (Doc (JArr []))))).2
    = Raise AttributeError ∧
  (__init__ "booking_state.json" "2025-01-15"
     (holding "booking_state.json" Unreadable)).2
    = Raise OSError ∧
  (__init__ "booking_state.json" "2025-01-15"
     (holding "booking_state.json" (Holding Undecodable))).2
    = Raise UnicodeDecodeError ∧
  (__init__ "booking_state.json" "2025-01-15"
     (holding "booking_state.json"
        (Holding (Doc (JObj [("last_reset_date", JStr "2025-01-15");
                             ("booked_today", JNum 3)]))))).2
    = Raise TypeError.
Proof. vm_compute. repeat split. Qed.

End Ledger.


(** ** The booking workflow *)

Section Booking.
Import ShiftBooking.
Context {E : Type} `{Environment E}.

Lemma keeps_state_driver {A} (m : M (Sys E) A) : keeps state (driver m).
Proof. intros w. unfold driver, zoom. by destruct (m (sys w)). Qed.

Lemma keeps_state_find_text (parent : elem) (selectors : list string) :
  keeps state (_find_text_by_selectors parent selectors).
Proof. unfold _find_text_by_selectors. keeps_with ltac:(apply keeps_state_driver). Qed.

Lemma keeps_state_choose (card : elem) (idx : nat) :
  keeps state (choose_job_id card idx).
Proof. unfold choose_job_id. keeps_with ltac:(apply keeps_state_driver). Qed.

Lemma keeps_state_extract (card : elem) (idx : nat) :
  keeps state (_extract_slot_info card idx).
Proof.
  unfold _extract_slot_info.
  keeps_with ltac:(first [apply keeps_state_driver | apply keeps_state_find_text
                         | apply keeps_state_choose]).
Qed.

Lemma collect_slots_unbooked (cards : list (nat * elem)) :
  ∀ (slots : list ShiftSlot) (w : World),
    unbooked (state w) slots →
    post (collect_slots cards slots) w
      (λ w' r, state w' = state w ∧
               match r with
               | Ret out => unbooked (state w) out
               | Raise _ => True
               end).
Proof.
  induction cards as [|[idx card] rest IH]; intros slots w Hs; simpl.
  { by apply post_ret. }
  eapply post_seq with
    (P := λ w1 r, state w1 = state w ∧
                  match r with
                  | Ret out => unbooked (state w) out
                  | Raise _ => False
                  end).
  - apply post_try. eapply post_seq; [apply (keeps_post state), keeps_state_extract| |].
    + intros w1 [sl|] Hw1; [|by apply post_ret].
      unfold ledger, zoom, ShiftBookingState.is_already_booked, gets.
      apply post_bind; [|done]. intros w2 b [= <- <-]. rewrite Hw1.
      case_bool_decide as Hb; apply post_ret; (split; [by destruct w1|]); [done|].
      intros sl' [Hin| ->%list_elem_of_singleton]%elem_of_app; auto.
    + intros w1 e Hw1. simpl. by apply post_ret.
  - intros w1 slots' [Hw1 Hs']. eapply post_weaken.
    + apply IH. by rewrite Hw1.
    + intros w2 r [Hw2 Hr]. rewrite Hw1 in *. done.
  - by intros w1 e [].
Qed.

(** Discovery reads the ledger and hands out no slot that is in it. *)
Lemma discover_unbooked (w : World) :
  post discover_available_slots w
    (λ w' r, match r with
             | Ret slots => unbooked (state w) slots
             | Raise _ => True
             end).
Proof.
  unfold discover_available_slots.
  eapply post_seq with (P := λ w1 _, state w1 = state w); [| |done].
  { apply keeps_post. keeps_with ltac:(apply keeps_state_driver). }
  intros w1 [|] Hw1; simpl; [|apply post_ret; by intros ? ?%elem_of_nil].
  eapply post_seq with (P := λ w2 _, state w2 = state w); [| |done].
  { eapply post_weaken; [apply (keeps_post state)|].
    - unfold find_cards. generalize card_selectors. intros l.
      induction l; keeps_with ltac:(first [apply keeps_state_driver|assumption]).
    - intros ? ? ->. done. }
  intros w2 cards Hw2.
  assert (Hc : post (collect_slots (enumerate cards) []) w2
                 (λ w' r, match r with
                          | Ret slots => unbooked (state w) slots
                          | Raise _ => True
                          end)).
  { eapply post_weaken; [apply collect_slots_unbooked; by intros ? ?%elem_of_nil|].
    intros w3 r [_ Hr]. by rewrite Hw2 in Hr. }
  destruct cards; [apply post_ret; by intros ? ?%elem_of_nil|exact Hc].
Qed.

Lemma keeps_state_find_cards_guarded (selectors : list string) :
  keeps state (find_cards_guarded selectors).
Proof.
  induction selectors; cbn [find_cards_guarded];
    keeps_with ltac:(first [apply keeps_state_driver|assumption]).
Qed.

Lemma keeps_state_handle_dropdown : keeps state handle_dropdown.
Proof.
  unfold handle_dropdown, _handle_shift_dropdown_fast.
  keeps_with ltac:(apply keeps_state_driver).
Qed.

Lemma keeps_state_click_apply : keeps state click_apply.
Proof.
  unfold click_apply, try_apply_selector, try_apply_button.
  keeps_with ltac:(apply keeps_state_driver).
Qed.

Lemma keeps_state_click_next_buttons : keeps state click_next_buttons.
Proof.
  unfold click_next_buttons. keeps_with ltac:(apply keeps_state_driver).
Qed.

Lemma keeps_state_gets {A} (f : World → A) : keeps (state (E := E)) (gets f).
Proof. by intros w. Qed.

(** [book_slot] touches the ledger in one place, the [mark_as_booked] of
    the slot's id, applied to the ledger it started with.  It answers
    [True] when that returned; with [False] the ledger is as it was, or is
    what a [mark_as_booked] that raised has left. *)
Lemma book_slot_marks (slot : ShiftSlot) (w : World) :
  post (book_slot slot) w
    (λ w' r, match r with
             | Ret true =>
                 ShiftBookingState.mark_as_booked (job_id slot) (state w)
                 = (state w', Ret tt)
             | Ret false =>
                 state w' = state w ∨
                 ∃ e, ShiftBookingState.mark_as_booked (job_id slot) (state w)
                      = (state w', Raise e)
             | Raise _ => False
             end).
Proof.
  unfold book_slot.
  match goal with |- post _ _ ?Q => set (Q' := Q) end.
  apply post_try.
  eapply post_weaken with
    (P := λ w' r, match r with
                  | Ret b => Q' w' (Ret b)
                  | Raise e => Q' w' (Ret false)
                  end).
  2: { intros w1 [b|e] Hq; exact Hq. }
  match goal with |- post _ _ ?Q => set (Q'' := Q) end.
  assert (HR : ∀ w1 e, state w1 = state w → Q'' w1 (Raise e)).
  { intros w1 e Hw1. left. exact Hw1. }
  assert (HF : ∀ w1, state w1 = state w → post (mret false) w1 Q'').
  { intros w1 Hw1. apply post_ret. left. exact Hw1. }
  eapply (post_kept state); [|reflexivity| |exact HR].
  { keeps_with ltac:(apply keeps_state_driver). }
  intros w1 _ H1.
  eapply (post_kept state); [apply keeps_state_find_cards_guarded|exact H1| |exact HR].
  intros w2 cards H2.
  destruct (cards !! card_index slot) as [card|]; [|by apply HF].
  eapply (post_kept state); [|exact H2| |exact HR].
  { cbn [click_methods for_first]. keeps_with ltac:(apply keeps_state_driver). }
  intros w3 [|] H3; cbn [negb]; [|by apply HF].
  eapply (post_kept state); [apply keeps_state_gets|exact H3| |exact HR].
  intros w4 fast H4.
  eapply (post_kept state); [apply keeps_state_driver|exact H4| |exact HR].
  intros w5 _ H5.
  eapply (post_kept state); [|exact H5| |exact HR].
  { destruct fast; keeps_with ltac:(apply keeps_state_driver). }
  intros w6 _ H6.
  eapply (post_kept state); [apply keeps_state_handle_dropdown|exact H6| |exact HR].
  intros w7 _ H7.
  eapply (post_kept state); [|exact H7| |exact HR].
  { destruct fast; keeps_with ltac:(apply keeps_state_driver). }
  intros w8 _ H8.
  eapply (post_kept state); [apply keeps_state_click_apply|exact H8| |exact HR].
  intros w9 [|] H9; cbn [negb]; [|by apply HF].
  eapply (post_kept state); [apply keeps_state_driver|exact H9| |exact HR].
  intros w10 _ H10.
  eapply (post_kept state); [apply keeps_state_click_next_buttons|exact H10| |exact HR].
  intros w11 _ H11.
  apply post_bind; intros w12 u Hm; unfold ledger, zoom in Hm; rewrite H11 in Hm;
    destruct (ShiftBookingState.mark_as_booked (job_id slot) (state w)) as [l r];
    destruct r; simplify_eq.
  - apply post_ret. subst Q'' Q'. cbn. by destruct u.
  - subst Q'' Q'. cbn. right. by eexists.
Qed.

(** A [mark_as_booked] that returns has found an integer counter. *)
Lemma mark_as_booked_returned (job_id : string) (l l' : ShiftBookingState.World) :
  ShiftBookingState.mark_as_booked job_id l = (l', Ret tt) →
  ∃ n, ShiftBookingState.int_of
         (ShiftBookingState.daily_count (ShiftBookingState.self l)) = Some n.
Proof.
  unfold ShiftBookingState.mark_as_booked. py_unfold.
  rewrite add_and_count_spec.
  destruct (ShiftBookingState.int_of _) as [n|]; [by eexists|].
  cbn. discriminate.
Qed.

(** C2 (amended): when [ShiftBooking.book_slot] answers [True], a
    [mark_as_booked] of the slot's id has returned on the ledger of the
    running process: the id is in the set, [is_already_booked] holds for
    it, and no later discovery of that process hands out a slot with this
    id while the ledger holds it.  What a process started anew finds
    depends on the save and on the date.  When the save went through, the
    file holds the updated record; a process started on the date stored in
    the ledger reads it back in full, and a process started on any other
    date, the day of the booking included when the ledger object is older
    than that day, resets the ledger and starts with nothing booked.  When
    the write failed, the file is truncated and a process started on any
    date starts with nothing booked.  When the open failed, the disk is
    what it was before the booking. *)
Theorem booked_before_success (slot : ShiftSlot) (w w' : World) :
  book_slot slot w = (w', Ret true) →
  let st := ShiftBookingState.self (state w') in
  let d := ShiftBookingState.disk (state w') in
  let file := ShiftBookingState.state_file st in
  let empty today :=
    {| ShiftBookingState.state_file := file;
       ShiftBookingState.booked_today := ∅;
       ShiftBookingState.daily_count := JNum 0;
       ShiftBookingState.last_reset_date := today |} in
  ShiftBookingState.mark_as_booked (job_id slot) (state w) = (state w', Ret tt) ∧
  KStr (job_id slot) ∈ ShiftBookingState.booked_today st ∧
  (ShiftBookingState.is_already_booked (job_id slot) (state w')).2 = Ret true ∧
  (∀ w2 w3 slots,
     KStr (job_id slot)
       ∈ ShiftBookingState.booked_today (ShiftBookingState.self (state w2)) →
     discover_available_slots w2 = (w3, Ret slots) →
     ∀ sl, sl ∈ slots → job_id sl ≠ job_id slot) ∧
  (faults d file = NoFault →
   files d !! file = Some (Holding (Doc (ShiftBookingState.record_of st))) ∧
   ∀ today,
     (today = ShiftBookingState.last_reset_date st →
      ShiftBookingState.__init__ file today d = (d, Ret st)) ∧
     (today ≠ ShiftBookingState.last_reset_date st →
      ∃ d', ShiftBookingState.__init__ file today d = (d', Ret (empty today)))) ∧
  (faults d file = DumpFails →
   files d !! file = Some (Holding Truncated) ∧
   ∀ today, ∃ d', ShiftBookingState.__init__ file today d = (d', Ret (empty today))) ∧
  (faults d file = OpenFails → d = ShiftBookingState.disk (state w)).
Proof.
  intros Hb. pose proof (book_slot_marks slot w) as Hm. unfold post in Hm.
  rewrite Hb in Hm. cbn in Hm. cbv zeta.
  destruct (mark_as_booked_returned _ _ _ Hm) as [n Hn].
  destruct (mark_as_booked_effect (job_id slot) (state w) n Hn)
    as (_ & Hbooked & _ & Hfile & Hdate & Hfaults & _ & Hdisk).
  rewrite Hm in Hbooked, Hfile, Hdate, Hfaults, Hdisk.
  cbn [fst] in Hbooked, Hfile, Hdate, Hfaults, Hdisk.
  rewrite <- Hfile, <- Hfaults in Hdisk.
  assert (Hin : KStr (job_id slot) ∈
            ShiftBookingState.booked_today (ShiftBookingState.self (state w'))).
  { rewrite Hbooked. apply elem_of_added. }
  split; [exact Hm|]. split; [exact Hin|]. split; [|split; [|split; [|split]]].
  - unfold ShiftBookingState.is_already_booked, gets. simpl.
    f_equal. by apply bool_decide_eq_true.
  - intros w2 w3 slots Hin2 Hd sl Hsl Heq.
    pose proof (discover_unbooked w2) as Hu. unfold post in Hu.
    rewrite Hd in Hu. simpl in Hu. apply (Hu sl Hsl). by rewrite Heq.
  - intros Hnf. rewrite Hnf in Hdisk. split; [exact Hdisk|].
    intros today. split.
    + intros ->. by apply init_reads_back.
    + intros Hother.
      destruct (init_resets_other_day _ today _ _ Hdisk) as (d' & Hi & _).
      * cbn. intros [= Heq]. by apply Hother.
      * by exists d'.
  - intros Hdf. rewrite Hdf in Hdisk. split; [exact Hdisk|].
    intros today.
    destruct (init_starts_empty_on_bad_text _ today _ _ Hdisk) as (d' & Hi & _);
      [by left|by exists d'].
  - intros Hof. by rewrite Hof in Hdisk.
Qed.

(** *** The id of a slot *)

Lemma append_cancel_l (p a b : string) : p +:+ a = p +:+ b → a = b.
Proof. induction p as [|c p IH]; simpl; [done|]. intros [= Heq]. by apply IH. Qed.

Lemma synthesized_id_clock (idx : nat) (t t' : Z) :
  synthesized_id idx t = synthesized_id idx t' ↔ t = t'.
Proof.
  split; [|by intros ->]. unfold synthesized_id. intros Heq.
  do 3 apply append_cancel_l in Heq. by apply (inj pretty).
Qed.

(** Reads the attributes that the hypotheses speak of. *)
Ltac read_attributes :=
  repeat match goal with
  | Hl : lacks ?c ?n |- context [answer (GetAttribute ?c ?n) ?e] =>
      let Ha := fresh "Ha" in
      destruct (Hl e) as [Ha|Ha];
      destruct (answer (GetAttribute c n) e) as [? [?|?]]; simpl in Ha;
      try discriminate; injection Ha as ->; simpl
  | Hc : carries ?c ?n ?v |- context [answer (GetAttribute ?c ?n) ?e] =>
      let Ha := fresh "Ha" in
      pose proof (proj2 Hc e) as Ha;
      destruct (answer (GetAttribute c n) e) as [? [?|?]]; simpl in Ha;
      try discriminate; injection Ha as ->; simpl
  end.

Lemma choose_job_id_synthesized (card : elem) (idx : nat) (w : World) :
  lacks card "data-job-id" → lacks card "data-testid" → lacks card "id" →
  post (choose_job_id card idx) w
    (λ w' r, match r with
             | Ret id => id = synthesized_id idx (time_time (env (sys w')))
             | Raise _ => False
             end).
Proof.
  intros H1 H2 H3. unfold post, choose_job_id, driver, zoom, call, clock, gets.
  py_unfold. simpl. read_attributes; reflexivity.
Qed.

Lemma choose_job_id_first (card : elem) (idx : nat) (v : string) (w : World) :
  carries card "data-job-id" v →
  post (choose_job_id card idx) w
    (λ w' r, match r with Ret id => id = v | Raise _ => False end).
Proof.
  intros H1. unfold post, choose_job_id, driver, zoom, call. py_unfold. simpl.
  read_attributes. destruct v; [by destruct H1|reflexivity].
Qed.

Lemma choose_job_id_second (card : elem) (idx : nat) (v : string) (w : World) :
  lacks card "data-job-id" → carries card "data-testid" v →
  post (choose_job_id card idx) w
    (λ w' r, match r with Ret id => id = v | Raise _ => False end).
Proof.
  intros H1 H2. unfold post, choose_job_id, driver, zoom, call. py_unfold. simpl.
  read_attributes; (destruct v; [by destruct H2|reflexivity]).
Qed.

Lemma choose_job_id_third (card : elem) (idx : nat) (v : string) (w : World) :
  lacks card "data-job-id" → lacks card "data-testid" → carries card "id" v →
  post (choose_job_id card idx) w
    (λ w' r, match r with Ret id => id = v | Raise _ => False end).
Proof.
  intros H1 H2 H3. unfold post, choose_job_id, driver, zoom, call. py_unfold. simpl.
  read_attributes; (destruct v; [by destruct H3|reflexivity]).
Qed.

Lemma extract_slot_info_id (card : elem) (idx : nat) (w : World)
    (P : World → string → Prop) :
  (∀ w0, post (choose_job_id card idx) w0
           (λ w' r, match r with Ret id => P w' id | Raise _ => False end)) →
  post (_extract_slot_info card idx) w
    (λ w' r, match r with
             | Ret (Some sl) => P w' (job_id sl) ∧ card_index sl = idx
             | Ret None => True
             | Raise _ => False
             end).
Proof.
  intros Hc. unfold _extract_slot_info. apply post_try.
  apply post_skip; [intros w1 t|done].
  apply post_skip; [intros w2 l|done].
  apply post_skip; [intros w3 s|done].
  apply post_skip; [intros w4 p|done].
  eapply post_seq; [apply Hc| |done].
  intros w5 id Hid. unfold driver, zoom, clock, gets. apply post_bind; [|done].
  intros w6 now [= <- _]. apply post_ret. split; [|reflexivity].
  simpl. by destruct w5.
Qed.

Lemma extract_slot_info_named (card : elem) (idx : nat) (v : string) (w : World) :
  (∀ w0, post (choose_job_id card idx) w0
           (λ w' r, match r with Ret id => id = v | Raise _ => False end)) →
  match _extract_slot_info card idx w with
  | (_, Ret (Some sl)) => job_id sl = v
  | (_, Ret None) => True
  | (_, Raise _) => False
  end.
Proof.
  intros Hc.
  pose proof (extract_slot_info_id card idx w (λ _ id, id = v) Hc) as Hp.
  unfold post in Hp.
  destruct (_extract_slot_info card idx w) as [w' [[sl|]|e]]; simpl in *;
    [apply Hp|done|done].
Qed.

(** C9 (amended): the id of a discovered slot is the card's first non-empty
    attribute among [data-job-id], [data-testid] and [id]: the
    [data-job-id] when the card carries one; the [data-testid] when it has
    no [data-job-id]; the [id] when it has neither of the former; in each
    case whatever the position of the card and the time of the pass.  For
    a card that has none of the three, the id is made of the card's
    position and the clock, not of its content: at one position, two passes
    give equal ids exactly when they read the same second. *)
Theorem job_id_of_card (card : elem) (idx : nat) (w : World) :
  (∀ v, carries card "data-job-id" v →
        match _extract_slot_info card idx w with
        | (_, Ret (Some sl)) => job_id sl = v
        | (_, Ret None) => True
        | (_, Raise _) => False
        end) ∧
  (∀ v, lacks card "data-job-id" → carries card "data-testid" v →
        match _extract_slot_info card idx w with
        | (_, Ret (Some sl)) => job_id sl = v
        | (_, Ret None) => True
        | (_, Raise _) => False
        end) ∧
  (∀ v, lacks card "data-job-id" → lacks card "data-testid" → carries card "id" v →
        match _extract_slot_info card idx w with
        | (_, Ret (Some sl)) => job_id sl = v
        | (_, Ret None) => True
        | (_, Raise _) => False
        end) ∧
  (lacks card "data-job-id" → lacks card "data-testid" → lacks card "id" →
   match _extract_slot_info card idx w with
   | (w', Ret (Some sl)) =>
       job_id sl = synthesized_id idx (time_time (env (sys w')))
   | (_, Ret None) => True
   | (_, Raise _) => False
   end) ∧
  (∀ t t', synthesized_id idx t = synthesized_id idx t' ↔ t = t').
Proof.
  split; [|split; [|split; [|split]]].
  - intros v H1. apply extract_slot_info_named. intros w0.
    by apply choose_job_id_first.
  - intros v H1 H2. apply extract_slot_info_named. intros w0.
    by apply choose_job_id_second.
  - intros v H1 H2 H3. apply extract_slot_info_named. intros w0.
    by apply choose_job_id_third.
  - intros H1 H2 H3.
    pose proof (extract_slot_info_id card idx w
                  (λ w' id, id = synthesized_id idx (time_time (env (sys w'))))
                  (λ w0, choose_job_id_synthesized card idx w0 H1 H2 H3)) as Hp.
    unfold post in Hp.
    destruct (_extract_slot_info card idx w) as [w' [[sl|]|e]]; simpl in *;
      [apply Hp|done|done].
  - apply synthesized_id_clock.
Qed.

End Booking.

(** ** What a run has seen

    A computation over a state that holds the environment, at [proj],
    continues the record of the environment; for the outcomes that [good]
    marks, it has looked at the site in a state that showed the success. *)

Section Traces.
Import BulletproofBookingService.
Context {E : Type} `{Environment E}.

Lemma replay_app (l1 l2 : list event) (e : E) :
  replay (l1 ++ l2) e = replay l2 (replay l1 e).
Proof.
  revert e. induction l1 as [|[A p|d] l1 IH]; intros e; simpl; [done|apply IH..].
Qed.

Lemma reaches_refl (y : Sys E) : reaches y y.
Proof. exists []. by rewrite app_nil_r. Qed.

Lemma reaches_trans (y1 y2 y3 : Sys E) : reaches y1 y2 → reaches y2 y3 → reaches y1 y3.
Proof.
  intros (l1 & He1 & Hv1) (l2 & He2 & Hv2). exists (l1 ++ l2).
  rewrite He2, He1, Hv2, Hv1, replay_app. by rewrite <- app_assoc.
Qed.

Lemma observed_after (y1 y2 y3 : Sys E) :
  reaches y1 y2 → observed_between y2 y3 → observed_between y1 y3.
Proof.
  intros (l1 & He1 & Hv1) (before & seen & after & He & Hv & Hs).
  exists (l1 ++ before), seen, after. rewrite He, He1, Hv, Hv1. split; [|split].
  - by rewrite <- !app_assoc.
  - by rewrite <- !app_assoc, !replay_app.
  - rewrite replay_app, <- Hv1. exact Hs.
Qed.

Lemma observed_before (y1 y2 y3 : Sys E) :
  observed_between y1 y2 → reaches y2 y3 → observed_between y1 y3.
Proof.
  intros (before & seen & after & He & Hv & Hs) (l2 & He2 & Hv2).
  exists before, seen, (after ++ l2). rewrite He2, He, Hv2, Hv. split; [|split].
  - by rewrite <- !app_assoc.
  - by rewrite <- !replay_app, <- !app_assoc.
  - exact Hs.
Qed.

Lemma reaches_call {A} (p : prim A) (y : Sys E) : reaches y (call p y).1.
Proof.
  unfold call. destruct (answer p (env y)) as [e' r] eqn:Ha. cbn.
  exists [Called p]. cbn. by rewrite Ha.
Qed.

Lemma reaches_sleep (d : duration) (y : Sys E) : reaches y (sleep d y).1.
Proof. by exists [Slept d]. Qed.

Lemma reaches_time_sleep (d : duration) (y : Sys E) : reaches y (time_sleep d y).1.
Proof.
  unfold time_sleep. destruct (duration_fault d); [apply reaches_refl|apply reaches_sleep].
Qed.

Context {S : Type} (proj : S → Sys E).

Lemma sees_ret {A} (good : outcome A → bool) (a : A) :
  good (Ret a) = false → sees proj good (mret a).
Proof. intros Hg s. split; [apply reaches_refl|]. cbn. by rewrite Hg. Qed.

Lemma sees_raise {A} (good : outcome A → bool) (e : exn) :
  good (Raise e) = false → sees proj good (raise e).
Proof. intros Hg s. split; [apply reaches_refl|]. cbn. by rewrite Hg. Qed.

Lemma sees_gets {A} (f : S → A) : sees proj silent (gets f).
Proof. intros s. split; [apply reaches_refl|done]. Qed.

Lemma sees_modify (f : S → S) : (∀ s, proj (f s) = proj s) → sees proj silent (modify f).
Proof. intros Hf s. split; [|done]. cbn. rewrite Hf. apply reaches_refl. Qed.

Lemma sees_silent {A} (good : outcome A → bool) (m : M S A) :
  sees proj silent m → (∀ s, good (m s).2 = false) → sees proj good m.
Proof. intros Hm Hg s. split; [apply Hm|]. by rewrite Hg. Qed.

(** After a part that has seen nothing. *)
Lemma sees_bind {A B} (good : outcome B → bool) (m : M S A) (k : A → M S B) :
  sees proj silent m → (∀ a, sees proj good (k a)) → (∀ e, good (Raise e) = false) →
  sees proj good (m ≫= k).
Proof.
  intros Hm Hk Hg s. destruct (Hm s) as [Hr _]. py_unfold.
  destruct (m s) as [s1 [a|e]]; cbn in *.
  - destruct (Hk a s1) as [Hr1 Ho1]. split.
    + by eapply reaches_trans.
    + intros Hgood. eapply observed_after; [exact Hr|by apply Ho1].
  - split; [exact Hr|]. by rewrite Hg.
Qed.

(** After a part that may have seen the success. *)
Lemma sees_after {A B} (seen : outcome A → bool) (good : outcome B → bool)
    (m : M S A) (k : A → M S B) :
  sees proj seen m →
  (∀ a, seen (Ret a) = true → sees proj silent (k a)) →
  (∀ a, seen (Ret a) = false → sees proj good (k a)) →
  (∀ e, good (Raise e) = false) →
  sees proj good (m ≫= k).
Proof.
  intros Hm Hseen Hnot Hg s. destruct (Hm s) as [Hr Ho]. py_unfold.
  destruct (m s) as [s1 [a|e]]; cbn in *.
  - destruct (seen (Ret a)) eqn:Hs.
    + destruct (Hseen a Hs s1) as [Hr1 _]. split.
      * by eapply reaches_trans.
      * intros _. eapply observed_before; [by apply Ho|exact Hr1].
    + destruct (Hnot a Hs s1) as [Hr1 Ho1]. split.
      * by eapply reaches_trans.
      * intros Hgood. eapply observed_after; [exact Hr|by apply Ho1].
  - split; [exact Hr|]. by rewrite Hg.
Qed.

Lemma sees_try {A} (good : outcome A → bool) (body : M S A) clause handler :
  sees proj good body → (∀ e, sees proj good (handler e)) →
  sees proj good (try_except body clause handler).
Proof.
  intros Hb Hh s. destruct (Hb s) as [Hr Ho]. py_unfold.
  destruct (body s) as [s1 [a|e]]; cbn in *; [done|].
  destruct (clause e); [|done].
  destruct (Hh e s1) as [Hr1 Ho1]. split.
  - by eapply reaches_trans.
  - intros Hgood. eapply observed_after; [exact Hr|by apply Ho1].
Qed.

Lemma sees_for_first_in {A} (good : outcome bool → bool) (xs : list A)
    (body : A → M S bool) :
  (∀ x, x ∈ xs → sees proj good (body x)) → good (Ret false) = false →
  sees proj good (for_first xs body).
Proof.
  intros Hb Hg. induction xs as [|x xs IH]; cbn [for_first]; [by apply sees_ret|].
  intros s. destruct (Hb x (list_elem_of_here _ _) s) as [Hr Ho]. py_unfold.
  destruct (body x s) as [s1 [[|]|e]]; cbn in *; [done| |done].
  destruct (IH (λ x' Hx, Hb x' (list_elem_of_further _ _ _ Hx)) s1) as [Hr1 Ho1].
  split.
  - by eapply reaches_trans.
  - intros Hgood. eapply observed_after; [exact Hr|by apply Ho1].
Qed.

Lemma sees_for_first {A} (good : outcome bool → bool) (xs : list A)
    (body : A → M S bool) :
  (∀ x, sees proj good (body x)) → good (Ret false) = false →
  sees proj good (for_first xs body).
Proof. intros Hb. apply sees_for_first_in. intros x _. apply Hb. Qed.

Lemma sees_for_return {A B} (good : outcome (option B) → bool) (xs : list A)
    (body : A → M S (option B)) :
  (∀ x, sees proj good (body x)) → good (Ret None) = false →
  sees proj good (for_return xs body).
Proof.
  intros Hb Hg. induction xs as [|x xs IH]; cbn [for_return]; [by apply sees_ret|].
  intros s. destruct (Hb x s) as [Hr Ho]. py_unfold.
  destruct (body x s) as [s1 [[v|]|e]]; cbn in *; [done| |done].
  destruct (IH s1) as [Hr1 Ho1]. split.
  - by eapply reaches_trans.
  - intros Hgood. eapply observed_after; [exact Hr|by apply Ho1].
Qed.

Lemma sees_for_each {A} (xs : list A) (body : A → M S unit) :
  (∀ x, sees proj silent (body x)) → sees proj silent (for_each xs body).
Proof.
  intros Hb. induction xs as [|x xs IH]; cbn [for_each]; [by apply sees_ret|].
  apply sees_bind; [apply Hb|intros _; apply IH|done].
Qed.

End Traces.

(** [sees proj silent m] for a computation built from the combinators, read
    off its syntax; [leaf] closes what is left. *)
Ltac silent_by leaf :=
  repeat lazymatch goal with
  | |- BulletproofBookingService.sees _ _ (mret _) => apply sees_ret; reflexivity
  | |- BulletproofBookingService.sees _ _ (raise _) => apply sees_raise; reflexivity
  | |- BulletproofBookingService.sees _ _ (gets _) => apply sees_gets
  | |- BulletproofBookingService.sees _ _ (mbind _ _) => apply sees_bind; [|intros ?|reflexivity]
  | |- BulletproofBookingService.sees _ _ (try_except _ _ _) => apply sees_try; [|intros ?]
  | |- BulletproofBookingService.sees _ _ (for_first _ _) => apply sees_for_first; [intros ?|reflexivity]
  | |- BulletproofBookingService.sees _ _ (for_return _ _) => apply sees_for_return; [intros ?|reflexivity]
  | |- BulletproofBookingService.sees _ _ (for_each _ _) => apply sees_for_each; intros ?
  | |- BulletproofBookingService.sees _ _ (match ?x with _ => _ end) => destruct x
  | |- BulletproofBookingService.sees _ _ (let _ := _ in _) => cbv zeta
  | |- _ => leaf
  end.

Section Bulletproof.
Import BulletproofBookingService.
Context {E : Type} `{Environment E}.

Lemma returns_driver {A} (m : M (Sys E) A) : returns m → returns (driver m).
Proof. intros Hm. apply returns_zoom. intros t. apply Hm. Qed.

Lemma returns_check : returns _check_booking_completion.
Proof. apply returns_try. intros e. apply returns_ret. Qed.

Lemma returns_flow_attempt_body (n : Z) : returns (flow_attempt_body n).
Proof.
  apply returns_try. intros e. apply returns_bind; [|intros; apply returns_ret].
  case_bool_decide; [apply returns_driver, returns_sleep|apply returns_ret].
Qed.

Lemma returns_complete_flow (n : Z) : returns (_complete_application_flow_bulletproof n).
Proof.
  apply returns_bind; [apply returns_for_return, returns_flow_attempt_body|].
  intros [v|]; [apply returns_ret|apply returns_check].
Qed.

Lemma returns_notifying (m : EnhancedDiscordNotifier.t → M (Service (E := E)) unit) :
  returns (notifying m).
Proof.
  apply returns_bind; [apply returns_gets|]. intros [n|]; [|apply returns_ret].
  apply returns_try. intros e. apply returns_ret.
Qed.

Lemma returns_booking_attempt (j : job) (n : Z) : returns (booking_attempt j n).
Proof.
  apply returns_try. intros e. apply returns_bind; [|intros; apply returns_ret].
  case_bool_decide; [apply returns_driver, returns_sleep|apply returns_ret].
Qed.

Lemma returns_attempt (j : job) (cid : string) :
  returns (attempt_bulletproof_booking j cid).
Proof.
  apply returns_bind; [apply returns_notifying|]. intros _.
  apply returns_bind; [apply returns_for_return, returns_booking_attempt|].
  intros [v|]; [apply returns_ret|].
  apply returns_bind; [apply returns_modify|]. intros _.
  apply returns_bind; [apply returns_notifying|]. intros _. apply returns_ret.
Qed.

(** *** The record of the run *)

Lemma silent_sys_call {A} (p : prim A) : sees (λ y : Sys E, y) silent (call p).
Proof. intros y. split; [apply reaches_call|done]. Qed.

Lemma silent_sys_sleep (d : duration) : sees (λ y : Sys E, y) silent (sleep d).
Proof. intros y. split; [apply reaches_sleep|done]. Qed.

Lemma silent_sys_time_sleep (d : duration) :
  sees (λ y : Sys E, y) silent (time_sleep d).
Proof. intros y. split; [apply reaches_time_sleep|done]. Qed.

Lemma silent_send (self : EnhancedDiscordNotifier.t) (urgent : bool) (n : Z) :
  sees (λ y : Sys E, y) silent (EnhancedDiscordNotifier.send self urgent n).
Proof.
  unfold EnhancedDiscordNotifier.send, EnhancedDiscordNotifier.send_attempt,
    EnhancedDiscordNotifier._send_fallback_notification.
  silent_by ltac:(idtac; first [apply silent_sys_call | apply silent_sys_sleep
                               | apply silent_sys_time_sleep]).
Qed.

Lemma silent_driver {A} (m : M (Sys E) A) :
  sees (λ y : Sys E, y) silent m → sees sys silent (driver m).
Proof.
  intros Hm s. split; [|done]. unfold driver, zoom.
  destruct (Hm (sys s)) as [Hr _]. by destruct (m (sys s)).
Qed.

Lemma silent_call {A} (p : prim A) : sees sys silent (driver (call p)).
Proof. apply silent_driver, silent_sys_call. Qed.

Lemma silent_sleep (d : duration) : sees sys silent (driver (sleep d)).
Proof. apply silent_driver, silent_sys_sleep. Qed.

Ltac silent_service :=
  silent_by ltac:(idtac; first [apply silent_call | apply silent_sleep]).

Lemma silent_click_strategy (el : elem) (st : strategy) :
  sees sys silent (_execute_click_strategy el st).
Proof. unfold _execute_click_strategy. silent_service. Qed.

Lemma silent_click_card (j : job) (n : Z) :
  sees sys silent (_click_job_card_bulletproof j n).
Proof.
  unfold _click_job_card_bulletproof, find_target.
  silent_by ltac:(idtac; first [apply silent_call | apply silent_sleep
                               | apply silent_click_strategy]).
Qed.

Lemma silent_modals : sees sys silent _handle_booking_modals_bulletproof.
Proof. unfold _handle_booking_modals_bulletproof. silent_service. Qed.

Lemma silent_click_apply (n : Z) : sees sys silent (_click_apply_button_bulletproof n).
Proof. unfold _click_apply_button_bulletproof. silent_service. Qed.

Lemma silent_click_flow_button : sees sys silent click_flow_button.
Proof. unfold click_flow_button. silent_service. Qed.

Lemma silent_retry_or_fail (n : Z) : sees sys silent (retry_or_fail n).
Proof. unfold retry_or_fail, _recovery_delay. silent_service. Qed.

Lemma silent_pause (b : bool) (d : duration) :
  sees sys silent (if b then driver (sleep d) else mret tt).
Proof. silent_service. Qed.

(** One indicator of the check: a displayed element is a sighting. *)
Lemma sees_indicator (indicator : string) :
  indicator ∈ success_indicators →
  sees sys says_true
    (try_except
       (elements ← driver (call (FindElements by_css indicator));
        match elements with
        | e0 :: _ => driver (call (IsDisplayed e0))
        | [] => mret false
        end)
       Exception
       (λ e, mret false)).
Proof.
  intros Hin s. unfold driver, zoom, call. py_unfold. cbn.
  destruct (answer (FindElements by_css indicator) (env (sys s)))
    as [e1 [x|[|e0 more]]] eqn:Hf; cbn.
  - split; [|done]. exists [Called (FindElements by_css indicator)]. cbn.
    by rewrite Hf.
  - split; [|done]. exists [Called (FindElements by_css indicator)]. cbn.
    by rewrite Hf.
  - destruct (answer (IsDisplayed e0) e1) as [e2 [x|shown]] eqn:Hd; cbn.
    + split; [|done].
      exists [Called (FindElements by_css indicator); Called (IsDisplayed e0)].
      cbn. rewrite Hf. cbn. rewrite Hd. by rewrite <- app_assoc.
    + split.
      * exists [Called (FindElements by_css indicator); Called (IsDisplayed e0)].
        cbn. rewrite Hf. cbn. rewrite Hd. by rewrite <- app_assoc.
      * destruct shown; [intros _|done].
        exists [], [Called (FindElements by_css indicator); Called (IsDisplayed e0)], [].
        cbn. rewrite Hf. cbn. rewrite Hd. cbn.
        split; [by rewrite <- app_assoc|]. split; [done|]. left.
        exists indicator, e1, e0, more. rewrite Hd. done.
Qed.

(** The address of the check: a completion pattern in it is a sighting. *)
Lemma sees_address :
  sees sys says_true
    (current_url ← driver (call CurrentUrl);
     mret (existsb (λ pattern, contains pattern (lower current_url))
             completion_url_patterns)).
Proof.
  intros s. unfold driver, zoom, call. py_unfold. cbn -[existsb].
  destruct (answer CurrentUrl (env (sys s))) as [e1 [x|url]] eqn:Hu; cbn -[existsb].
  - split; [|done]. exists [Called CurrentUrl]. cbn. by rewrite Hu.
  - split.
    + exists [Called CurrentUrl]. cbn. by rewrite Hu.
    + destruct (existsb (λ pattern, contains pattern (lower url))
                  completion_url_patterns) eqn:Hex; [intros _|done].
      apply existsb_exists in Hex as (pattern & Hp & Hc).
      exists [], [Called CurrentUrl], []. cbn. rewrite Hu. cbn.
      split; [done|]. split; [done|]. right.
      exists url, pattern. rewrite Hu. cbn.
      split; [done|]. split; [by apply list_elem_of_In|done].
Qed.

(** The check answers [True] only on a sighting. *)
Lemma sees_check : sees sys says_true _check_booking_completion.
Proof.
  unfold _check_booking_completion. apply sees_try; [|intros e; by apply sees_ret].
  eapply sees_after; [apply sees_for_first_in; [apply sees_indicator|done]| | |done].
  - intros [|]; [intros _; by apply sees_ret|done].
  - intros [|]; [done|intros _; apply sees_address].
Qed.

Lemma sees_flow_attempt_body (n : Z) :
  sees sys says_some_true (flow_attempt_body n).
Proof.
  assert (Hh : sees sys says_some_true
                 ((if bool_decide (n < max_flow_attempts - 1)
                   then driver (sleep (Seconds 2)) else mret tt);;
                  mret (None : option bool))).
  { apply sees_bind; [apply silent_pause|intros _; by apply sees_ret|done]. }
  unfold flow_attempt_body. apply sees_try; [|intros e; exact Hh].
  eapply sees_after; [apply sees_check| | |done].
  - intros [|]; [intros _; by apply sees_ret|done].
  - intros [|]; [done|intros _].
    apply sees_bind; [apply silent_click_flow_button| |done].
    intros [|]; cbn [negb]; [by apply sees_ret|].
    eapply sees_after; [apply sees_check| | |done].
    + intros [|]; [intros _; by apply sees_ret|done].
    + intros [|]; [done|intros _; exact Hh].
Qed.

(** The flow answers [True] only on a sighting. *)
Lemma sees_complete_flow (n : Z) :
  sees sys says_true (_complete_application_flow_bulletproof n).
Proof.
  unfold _complete_application_flow_bulletproof.
  eapply sees_after;
    [apply sees_for_return; [apply sees_flow_attempt_body|done]| | |done].
  - intros [[|]|]; [intros _; by apply sees_ret|done|done].
  - intros [[|]|]; [done|intros _; by apply sees_ret|intros _; apply sees_check].
Qed.

Lemma silent_notifying (m : EnhancedDiscordNotifier.t → M (Service (E := E)) unit) :
  (∀ n, sees sys silent (m n)) → sees sys silent (notifying m).
Proof.
  intros Hm. unfold notifying.
  silent_by ltac:(idtac; apply Hm).
Qed.

Lemma sees_booking_attempt (j : job) (n : Z) :
  sees sys says_some_true (booking_attempt j n).
Proof.
  assert (Hretry : sees sys says_some_true (retry_or_fail n)).
  { apply sees_silent; [apply silent_retry_or_fail|].
    intros s. unfold retry_or_fail. case_bool_decide; [|done].
    py_unfold. by destruct (_recovery_delay n s) as [s1 [[]|e]]. }
  unfold booking_attempt. apply sees_try.
  2: { intros e. apply sees_bind; [|intros _; by apply sees_ret|done].
       unfold _recovery_delay. apply silent_pause. }
  apply sees_bind; [apply silent_click_card| |done].
  intros [|]; cbn [negb]; [|exact Hretry].
  apply sees_bind; [apply silent_modals| |done]. intros _.
  apply sees_bind; [apply silent_click_apply| |done].
  intros [|]; cbn [negb]; [|exact Hretry].
  eapply sees_after; [apply sees_complete_flow| | |done].
  - intros [|]; [intros _|done]. cbn [negb].
    apply sees_bind; [by apply sees_modify| |done]. intros _.
    apply sees_bind; [|intros _; by apply sees_ret|done].
    apply silent_notifying. intros _. by apply sees_raise.
  - intros [|]; [done|intros _]. cbn [negb]. exact Hretry.
Qed.

(** The attempt answers [True] only on a sighting. *)
Lemma sees_attempt (j : job) (cid : string) :
  sees sys says_true (attempt_bulletproof_booking j cid).
Proof.
  unfold attempt_bulletproof_booking.
  apply sees_bind; [|intros _|done].
  { apply silent_notifying. intros _. by apply sees_raise. }
  eapply sees_after;
    [apply sees_for_return; [apply sees_booking_attempt|done]| | |done].
  - intros [[|]|]; [intros _; by apply sees_ret|done|done].
  - intros [[|]|]; [done|intros _; by apply sees_ret|intros _].
    apply sees_silent; [|].
    + apply sees_bind; [by apply sees_modify|intros _|done].
      apply sees_bind; [|intros _; by apply sees_ret|done].
      apply silent_notifying. intros nt.
      apply sees_bind; [apply silent_driver, silent_send|intros _; by apply sees_ret|done].
    + intros s. py_unfold. cbn.
      match goal with |- context [notifying ?m ?x] =>
        destruct (returns_notifying m x) as (s2 & [] & ->) end.
      done.
Qed.

(** C3 (amended): in [BulletproofBookingService], the application flow
    and the booking attempt built on it never raise, and they report
    success only when, in the course of that very run, a completion check
    has seen the success on the site: a lookup by one of the indicator
    selectors found an element that was reported displayed, or the address
    read held a completion pattern.  On a site that never shows either, the
    flow answers [False] and so does the attempt.
    ([ShiftBooking.book_slot] has no such check.) *)
Theorem success_requires_indicator (j : job) (cid : string) (n : Z) (s : Service) :
  (∃ s' b, _complete_application_flow_bulletproof n s = (s', Ret b) ∧
           (b = true → observed_between (sys s) (sys s'))) ∧
  (∃ s' b, attempt_bulletproof_booking j cid s = (s', Ret b) ∧
           (b = true → observed_between (sys s) (sys s'))) ∧
  ((∀ e : E, ¬ success_observed e) →
   (_complete_application_flow_bulletproof n s).2 = Ret false ∧
   (attempt_bulletproof_booking j cid s).2 = Ret false).
Proof.
  assert (Hflow : ∃ s' b, _complete_application_flow_bulletproof n s = (s', Ret b) ∧
                          (b = true → observed_between (sys s) (sys s'))).
  { destruct (returns_complete_flow n s) as (s' & b & Hr).
    exists s', b. split; [exact Hr|]. intros ->.
    destruct (sees_complete_flow n s) as [_ Ho]. rewrite Hr in Ho. by apply Ho. }
  assert (Hatt : ∃ s' b, attempt_bulletproof_booking j cid s = (s', Ret b) ∧
                         (b = true → observed_between (sys s) (sys s'))).
  { destruct (returns_attempt j cid s) as (s' & b & Hr).
    exists s', b. split; [exact Hr|]. intros ->.
    destruct (sees_attempt j cid s) as [_ Ho]. rewrite Hr in Ho. by apply Ho. }
  split; [exact Hflow|]. split; [exact Hatt|].
  intros Hnever.
  assert (Hno : ∀ y y' : Sys E, ¬ observed_between y y').
  { intros y y' (before & seen & after & _ & _ & Hs).
    apply (Hnever (replay before (env y))). by exists seen. }
  destruct Hflow as (s1 & b1 & -> & H1). destruct Hatt as (s2 & b2 & -> & H2).
  cbn. split.
  - destruct b1; [|done]. by destruct (Hno _ _ (H1 eq_refl)).
  - destruct b2; [|done]. by destruct (Hno _ _ (H2 eq_refl)).
Qed.

End Bulletproof.


Section BookingScenarios.
Import Scenario ShiftBooking.

Lemma discover_at_page (now : Z) (f : fault) :
  (discover_available_slots (at_page now (Some "JOB-123") f)).2
  = Ret [the_slot "JOB-123"].
Proof. destruct f; by vm_compute. Qed.

Lemma book_at_page :
  let w := at_page 1736931600 (Some "JOB-123") NoFault in
  (book_slot (the_slot "JOB-123") w).2 = Ret true.
Proof. by vm_compute. Qed.

Lemma booked_before_success_witness :
  let w := at_page 1736931600 (Some "JOB-123") NoFault in
  let w' := (book_slot (the_slot "JOB-123") w).1 in
  book_slot (the_slot "JOB-123") w = (w', Ret true) ∧
  KStr "JOB-123" ∈ ShiftBookingState.booked_today (ShiftBookingState.self (state w')) ∧
  faults (ShiftBookingState.disk (state w')) "booking_state.json" = NoFault ∧
  ShiftBookingState.__init__ "booking_state.json" "2025-01-15"
    (ShiftBookingState.disk (state w'))
  = (ShiftBookingState.disk (state w'), Ret (ShiftBookingState.self (state w'))) ∧
  ∃ d', ShiftBookingState.__init__ "booking_state.json" "2025-01-16"
          (ShiftBookingState.disk (state w'))
        = (d', Ret {| ShiftBookingState.state_file := "booking_state.json";
                      ShiftBookingState.booked_today := ∅;
                      ShiftBookingState.daily_count := JNum 0;
                      ShiftBookingState.last_reset_date := "2025-01-16" |}).
Proof.
  cbv zeta.
  assert (Hb : book_slot (the_slot "JOB-123")
                 (at_page 1736931600 (Some "JOB-123") NoFault)
               = ((book_slot (the_slot "JOB-123")
                     (at_page 1736931600 (Some "JOB-123") NoFault)).1, Ret true)).
  { rewrite <- book_at_page. by destruct (book_slot _ _). }
  destruct (booked_before_success _ _ _ Hb) as (_ & Hin & _ & _ & Hinit & _).
  split; [exact Hb|]. split; [exact Hin|]. split; [reflexivity|].
  destruct (Hinit eq_refl) as [_ Hstart].
  split.
  - exact (proj1 (Hstart "2025-01-15") eq_refl).
  - apply (proj2 (Hstart "2025-01-16")). vm_compute. discriminate.
Defined.

(** C2, as stated, fails.  When the ledger file cannot be opened for
    writing, [book_slot] still answers [True]; a process started anew the
    same day finds no record, holds the id not booked, and its discovery
    hands the slot out again.  And the booking attempt of
    [BulletproofBookingService], the workflow that the scheduler drives,
    answers [True] with no ledger in its state at all. *)
Lemma success_without_durable_record :
  let w := at_page 1736931600 (Some "JOB-123") OpenFails in
  let w' := (book_slot (the_slot "JOB-123") w).1 in
  (book_slot (the_slot "JOB-123") w).2 = Ret true ∧
  (∃ w2, restarted (native := Some "JOB-123") 1736931700
           (ShiftBookingState.disk (state w')) = Ret w2 ∧
         (ShiftBookingState.is_already_booked "JOB-123" (state w2)).2 = Ret false ∧
         (discover_available_slots w2).2 = Ret [the_slot "JOB-123"]) ∧
  (BulletproofBookingService.attempt_bulletproof_booking the_job "1-1"
     (service_on smooth)).2 = Ret true.
Proof.
  cbv zeta. split; [by vm_compute|]. split; [|by vm_compute].
  eexists. split; [by vm_compute|]. split; by vm_compute.
Qed.

Lemma page_never_confirms native (s : BulletproofBookingService.Service (E := Page native)) :
  (BulletproofBookingService._check_booking_completion s).2 = Ret false.
Proof. destruct s as [[[c] evs] n sc fc]. reflexivity. Qed.

Lemma page_never_shows native (e : Page native) :
  ¬ BulletproofBookingService.success_observed e.
Proof.
  intros (seen & [(indicator & e1 & e0 & more & Hin & Hf & _)
                 |(url & pattern & Hu & Hin & Hc & _)]).
  - unfold BulletproofBookingService.success_indicators in Hin.
    repeat (apply elem_of_cons in Hin as [->|Hin]; [by vm_compute in Hf|]).
    by apply elem_of_nil in Hin.
  - cbn in Hu. injection Hu as <-.
    unfold BulletproofBookingService.completion_url_patterns in Hin.
    repeat (apply elem_of_cons in Hin as [->|Hin]; [by vm_compute in Hc|]).
    by apply elem_of_nil in Hin.
Qed.

Lemma success_requires_indicator_witness :
  ((BulletproofBookingService.attempt_bulletproof_booking the_job "1-1"
      (service_on smooth)).2 = Ret true ∧
   BulletproofBookingService.observed_between (start smooth)
     (BulletproofBookingService.sys
        (BulletproofBookingService.attempt_bulletproof_booking the_job "1-1"
           (service_on smooth)).1)) ∧
  (∀ e : Page None, ¬ BulletproofBookingService.success_observed e) ∧
  (BulletproofBookingService._complete_application_flow_bulletproof 0
     (service_on (page None 1736931600))).2 = Ret false ∧
  (BulletproofBookingService.attempt_bulletproof_booking the_job "1-1"
     (service_on (page None 1736931600))).2 = Ret false.
Proof.
  split.
  - destruct (success_requires_indicator the_job "1-1" 0 (service_on smooth))
      as (_ & (s' & b & Hr & Ho) & _).
    assert (Hb : (BulletproofBookingService.attempt_bulletproof_booking the_job "1-1"
                    (service_on smooth)).2 = Ret true) by by vm_compute.
    rewrite Hr in Hb |- *. cbn in Hb |- *. injection Hb as ->.
    split; [reflexivity|exact (Ho eq_refl)].
  - split; [apply page_never_shows|].
    exact (proj2 (proj2 (success_requires_indicator the_job "1-1" 0
                           (service_on (page None 1736931600))))
             (page_never_shows None)).
Defined.

(** C3, as stated, fails on [ShiftBooking.book_slot].  On a page that never
    shows a success indicator, and whose address never matches a completion
    pattern, the apply button is clicked, none of the proceed buttons is
    found, and the slot is written to the ledger and reported booked. *)
Lemma book_slot_succeeds_unconfirmed :
  let w := at_page 1736931600 (Some "JOB-123") NoFault in
  let w' := (book_slot (the_slot "JOB-123") w).1 in
  (∀ s : BulletproofBookingService.Service (E := Page (Some "JOB-123")),
     (BulletproofBookingService._check_booking_completion s).2 = Ret false) ∧
  (book_slot (the_slot "JOB-123") w).2 = Ret true ∧
  (ShiftBookingState.is_already_booked "JOB-123" (state w')).2 = Ret true ∧
  ShiftBookingState.daily_count (ShiftBookingState.self (state w')) = JNum 1.
Proof.
  cbv zeta. split; [apply page_never_confirms|]. repeat split; by vm_compute.
Qed.

Lemma tagged_lacks (attrs : list (string * string)) (card : elem) (name : string) :
  (list_to_map attrs : gmap string string) !! name = None →
  lacks (E := Tagged attrs) card name.
Proof. intros Hn e. left. cbn. by rewrite Hn. Qed.

Lemma tagged_carries (attrs : list (string * string)) (card : elem) (name v : string) :
  v ≠ EmptyString →
  (list_to_map attrs : gmap string string) !! name = Some v →
  carries (E := Tagged attrs) card name v.
Proof. intros Hv Hn. split; [exact Hv|]. intros e. cbn. by rewrite Hn. Qed.

Lemma job_id_of_card_witness :
  match _extract_slot_info 0%nat 4 (at_tagged [("data-job-id", "JOB-123"); ("id", "row-3")]) with
  | (_, Ret (Some sl)) => job_id sl = "JOB-123"
  | (_, Ret None) => True
  | (_, Raise _) => False
  end ∧
  match _extract_slot_info 0%nat 4 (at_tagged [("data-testid", "card-7"); ("id", "row-3")]) with
  | (_, Ret (Some sl)) => job_id sl = "card-7"
  | (_, Ret None) => True
  | (_, Raise _) => False
  end ∧
  match _extract_slot_info 0%nat 4 (at_tagged [("id", "row-3")]) with
  | (_, Ret (Some sl)) => job_id sl = "row-3"
  | (_, Ret None) => True
  | (_, Raise _) => False
  end ∧
  match _extract_slot_info 0%nat 4 (at_tagged [("class", "job-card")]) with
  | (w', Ret (Some sl)) => job_id sl = synthesized_id 4 (time_time (env (sys w')))
  | (_, Ret None) => True
  | (_, Raise _) => False
  end.
Proof.
  split; [|split; [|split]].
  - apply (proj1 (job_id_of_card 0%nat 4 (at_tagged _)) "JOB-123").
    by apply tagged_carries.
  - apply (proj1 (proj2 (job_id_of_card 0%nat 4 (at_tagged _))) "card-7").
    + by apply tagged_lacks.
    + by apply tagged_carries.
  - apply (proj1 (proj2 (proj2 (job_id_of_card 0%nat 4 (at_tagged _)))) "row-3").
    + by apply tagged_lacks.
    + by apply tagged_lacks.
    + by apply tagged_carries.
  - apply (proj1 (proj2 (proj2 (proj2 (job_id_of_card 0%nat 4 (at_tagged _)))))).
    + by apply tagged_lacks.
    + by apply tagged_lacks.
    + by apply tagged_lacks.
Defined.

(** C9, as stated, fails.  The same card, at the same position, on the same
    page, is given one id by a pass and another id by a pass one second
    later; once the first id is booked and in the ledger, the next pass
    hands the card out again under a new id. *)
Lemma synthesized_id_not_stable :
  (discover_available_slots (at_page 1736931600 None NoFault)).2
    = Ret [the_slot "shift_0_1736931600"] ∧
  (discover_available_slots (at_page 1736931601 None NoFault)).2
    = Ret [the_slot "shift_0_1736931601"] ∧
  let w' := (book_slot (the_slot "shift_0_1736931600")
               (at_page 1736931600 None NoFault)).1 in
  (book_slot (the_slot "shift_0_1736931600") (at_page 1736931600 None NoFault)).2
    = Ret true ∧
  (ShiftBookingState.is_already_booked "shift_0_1736931600" (state w')).2 = Ret true ∧
  (discover_available_slots w').2 = Ret [the_slot "shift_0_1736931603"].
Proof. cbv zeta. repeat split; by vm_compute. Qed.

End BookingScenarios.


(** ** The notifier *)

Section Notifier.
Import EnhancedDiscordNotifier.
Context {E : Type} `{Environment E}.




End Notifier.

(** ** The scheduler *)

Section Monitor.
Import BulletproofMonitor.
Context {E : Type} `{Environment E}.








(** *** What comes later in a run *)

#[local] Instance later_refl : Reflexive (later (E := E)).
Proof. intros s. split; [apply reaches_refl|done]. Qed.

#[local] Instance later_trans : Transitive (later (E := E)).
Proof.
  intros s1 s2 s3 (Hr1 & Hm1 & Hb1) (Hr2 & Hm2 & Hb2). split; [|split].
  - by eapply reaches_trans.
  - congruence.
  - auto.
Qed.

















(** *** The cycle after a recovery *)



End Monitor.

Section MonitorScenarios.
Import BulletproofMonitor Scenario.



(** C4 at its failing inputs, on a site where every booking goes through and
    every search reports three jobs.  With a daily limit of 2 and one booking
    a cycle, the monitor is still running after the second cycle, in which
    the total reached 2; it opens a third browser session and stops only
    there.  With a daily limit of 2 and up to three bookings a cycle, the
    first cycle books three. *)
Theorem daily_limit_checked_against_stale_total :
  let after fuel c := (_run_monitoring_loop (E := Smooth) fuel (monitor_on smooth c)).1 in
  (total_bookings (monitor (after 2%nat (limits 1 2))) = 2 ∧
   running (monitor (after 2%nat (limits 1 2))) = true ∧
   browsers (events (sys (monitor (after 2%nat (limits 1 2))))) = 2%nat) ∧
  (running (monitor (after 3%nat (limits 1 2))) = false ∧
   cycle_count (monitor (after 3%nat (limits 1 2))) = 3 ∧
   browsers (events (sys (monitor (after 3%nat (limits 1 2))))) = 3%nat) ∧
  total_bookings (monitor (after 1%nat (limits 3 2))) = 3.
Proof. by vm_compute. Qed.

End MonitorScenarios.
